(** * Ghumakkad: retrieval fusion and the chat endpoint

    A shallow embedding of the TypeScript sources of the travel assistant:

    - [searchCity] (utils.ts): the structured lookup over the city list;
    - the [/api/chat] handler of [createApp] (app.ts), in its streaming
      form (the [try] block that ends with [res.write] and [res.end], and
      the [catch] block that tests [res.headersSent]) and in its buffered
      form (the one that ends with [res.json]): query normalisation,
      context fusion, prompt composition, the calls to the embedder, the
      vector store and the chat model, and the failure paths.

    Strings.  A JavaScript string is modelled as a Rocq [string].  Source
    constants are written with the UTF-8 bytes of the source file.  The
    operations used by the code ([includes], [split] on [/\W+/], [replace]
    of an ASCII pattern, [join], template literals, [JSON.stringify]) act
    the same way on the UTF-8 form and on the UTF-16 form of well-formed
    text.  [toLowerCase] and [trim] are modelled on the ASCII range:
    [toLowerCase] maps [A-Z] to [a-z], [trim] strips TAB, LF, VT, FF, CR
    and SPACE.  On other text JavaScript lowers more characters, some of
    them by their context; the theorems on [searchCity] therefore compare
    the lowercased strings, as the code does, and use of [toLowerCase] only
    that it maps the empty string, and no other, to the empty string.

    Numbers.  The costs of a city and the coordinates of an embedding are
    JavaScript numbers.  The model is parametric in the type [number] and
    in its printing function [Number_toString] (what a template literal
    applies to a number).

    Effects.  The handler runs in a monad of state and exceptions.  The
    state holds the response object, the calls made to the collaborators
    and the lines of [console.error].  The collaborators are functions
    that return or throw; what they throw are [Error] objects, and the
    stream of the model is a finite list of chunks followed by normal
    completion or by a rejection.  Writing to the response does not throw
    (Node reports transport errors on the stream). *)

From Stdlib Require Import String Ascii List Bool Arith NArith Lia.
From Stdlib Require Import DecimalString.
Import ListNotations.

Local Open Scope list_scope.
Local Open Scope string_scope.

(** ** JavaScript strings *)

Module Js.

(** Code of a character. *)
Definition code (c : ascii) : nat := nat_of_ascii c.

Definition in_range (lo hi : nat) (c : ascii) : bool :=
  Nat.leb lo (code c) && Nat.leb (code c) hi.

Definition is_upper (c : ascii) : bool := in_range 65 90 c.
Definition is_lower (c : ascii) : bool := in_range 97 122 c.
Definition is_digit (c : ascii) : bool := in_range 48 57 c.

(** [String.prototype.toLowerCase], on the ASCII range. *)
Definition lower_char (c : ascii) : ascii :=
  if is_upper c then ascii_of_nat (code c + 32) else c.

Fixpoint toLowerCase (s : string) : string :=
  match s with
  | EmptyString => EmptyString
  | String c r => String (lower_char c) (toLowerCase r)
  end.

(** [s.startsWith(p)]. *)
Fixpoint startsWith (s p : string) {struct p} : bool :=
  match p, s with
  | EmptyString, _ => true
  | String _ _, EmptyString => false
  | String a p', String b s' => Ascii.eqb a b && startsWith s' p'
  end.

(** [s.includes(sub)]: [sub] occurs in [s] at some position. *)
Fixpoint includes (s sub : string) : bool :=
  startsWith s sub ||
  match s with
  | EmptyString => false
  | String _ r => includes r sub
  end.

(** The class [\w] of a regular expression without flags: [[A-Za-z0-9_]]. *)
Definition is_word_char (c : ascii) : bool :=
  is_upper c || is_lower c || is_digit c || Nat.eqb (code c) 95.

(** [s.split(/\W+/)].  The separator is a maximal run of characters outside
    [\w].  A separator at the start of [s] leaves an empty first piece, a
    separator at the end an empty last piece, and the empty string splits
    into one empty piece.  [cur] is the piece being read, [in_sep] tells
    that the previous character belonged to a separator. *)
Fixpoint split_W_from (in_sep : bool) (cur : string) (s : string)
  : list string :=
  match s with
  | EmptyString => [cur]
  | String c r =>
      if is_word_char c then split_W_from false (cur ++ String c EmptyString) r
      else if in_sep then split_W_from true EmptyString r
      else cur :: split_W_from true EmptyString r
  end.

Definition split_W (s : string) : list string :=
  split_W_from false EmptyString s.

(** White space stripped by [trim], on the ASCII range. *)
Definition is_space (c : ascii) : bool :=
  in_range 9 13 c || Nat.eqb (code c) 32.

Fixpoint trimStart (s : string) : string :=
  match s with
  | EmptyString => EmptyString
  | String c r => if is_space c then trimStart r else s
  end.

(** [trimEnd] keeps a character when it is not a space or when something
    is left after it. *)
Fixpoint trimEnd (s : string) : string :=
  match s with
  | EmptyString => EmptyString
  | String c r =>
      match trimEnd r with
      | EmptyString => if is_space c then EmptyString else String c EmptyString
      | r' => String c r'
      end
  end.

Definition trim (s : string) : string := trimEnd (trimStart s).

(** [xs.join(sep)]. *)
Fixpoint join (sep : string) (xs : list string) : string :=
  match xs with
  | [] => EmptyString
  | [x] => x
  | x :: rest => x ++ sep ++ join sep rest
  end.

(** First occurrence of [pat] in [s]: the text before it and the text after
    it. *)
Fixpoint find (s pat : string) : option (string * string) :=
  if startsWith s pat
  then Some (EmptyString, substring (String.length pat) (String.length s - String.length pat) s)
  else match s with
       | EmptyString => None
       | String c r =>
           match find r pat with
           | Some (before, after) => Some (String c before, after)
           | None => None
           end
       end.

(** [GetSubstitution] of ECMAScript for a string pattern (no capture
    groups): in the replacement text, [$$] stands for a dollar sign, [$&]
    for the matched text, [$`] for the text before the match and [$'] for
    the text after it; any other dollar sign stays. *)
Fixpoint GetSubstitution (matched before after : string) (template : string)
  : string :=
  match template with
  | EmptyString => EmptyString
  | String c rest =>
      if Ascii.eqb c "$" then
        match rest with
        | String d rest' =>
            if Ascii.eqb d "$" then
              String "$" (GetSubstitution matched before after rest')
            else if Ascii.eqb d "&" then
              matched ++ GetSubstitution matched before after rest'
            else if Ascii.eqb d "`" then
              before ++ GetSubstitution matched before after rest'
            else if Ascii.eqb d "'" then
              after ++ GetSubstitution matched before after rest'
            else String c (GetSubstitution matched before after rest)
        | EmptyString => String c EmptyString
        end
      else String c (GetSubstitution matched before after rest)
  end.

(** [s.replace(pat, replacement)] with a string pattern: the first
    occurrence only. *)
Definition replace (s pat replacement : string) : string :=
  match find s pat with
  | None => s
  | Some (before, after) =>
      before ++ GetSubstitution pat before after replacement ++ after
  end.

(** [sub] occurs in [s]: what [includes] decides. *)
Definition occurs_in (sub s : string) : Prop :=
  exists a b, s = a ++ sub ++ b.

End Js.

Import Js.

(** The double quote, the backslash and the line feed. *)
Definition dq : string := String (ascii_of_nat 34) EmptyString.
Definition backslash : string := String (ascii_of_nat 92) EmptyString.
Definition nl : string := String (ascii_of_nat 10) EmptyString.

(** ** JSON text

    [JSON.stringify] on the objects the handler sends: one level of string
    keys with a string or a boolean value. *)

Module JSON.

Definition hex_digit (n : nat) : ascii :=
  ascii_of_nat (if Nat.ltb n 10 then 48 + n else 87 + n).

(** [QuoteJSONString], one character: the quote and the backslash are
    escaped, the control characters below U+0020 are written with their
    short escape or as [\u00XX]. *)
Definition escape_char (c : ascii) : string :=
  let n := code c in
  if Nat.eqb n 34 then backslash ++ dq
  else if Nat.eqb n 92 then backslash ++ backslash
  else if Nat.eqb n 8 then backslash ++ "b"
  else if Nat.eqb n 12 then backslash ++ "f"
  else if Nat.eqb n 10 then backslash ++ "n"
  else if Nat.eqb n 13 then backslash ++ "r"
  else if Nat.eqb n 9 then backslash ++ "t"
  else if Nat.ltb n 32 then
    backslash ++ "u00" ++
    String (hex_digit (n / 16)) (String (hex_digit (n mod 16)) EmptyString)
  else String c EmptyString.

Fixpoint escape (s : string) : string :=
  match s with
  | EmptyString => EmptyString
  | String c r => escape_char c ++ escape r
  end.

Definition quote (s : string) : string := dq ++ escape s ++ dq.

Inductive value : Type :=
| Str (s : string)
| Bool (b : bool).

Definition stringify_value (v : value) : string :=
  match v with
  | Str s => quote s
  | Bool true => "true"
  | Bool false => "false"
  end.

Definition stringify (obj : list (string * value)) : string :=
  "{" ++ join ","
           (map (fun kv => quote (fst kv) ++ ":" ++ stringify_value (snd kv))
                obj)
  ++ "}".

End JSON.

(** ** Completions

    A JavaScript computation returns a value or throws.  What the code
    throws and catches here are [Error] objects; the handler reads their
    [message]. *)

Record Error : Type := mkError { message : string }.

Inductive Completion (A : Type) : Type :=
| Normal (a : A)
| Throw (e : Error).

Arguments Normal {A} a.
Arguments Throw {A} e.

(** Values a JSON request body can hold in its [query] field.  [undefined]
    is the missing field.  [JsObject] stands for any value that is truthy
    and not a string (object, array, non-zero number, [true]). *)
Inductive JsValue : Type :=
| undefined
| null
| JsFalse
| JsString (s : string)
| JsObject.

Definition truthy (v : JsValue) : bool :=
  match v with
  | undefined | null | JsFalse => false
  | JsString s => negb (String.eqb s EmptyString)
  | JsObject => true
  end.

(** [a || b]. *)
Definition or_else (a b : JsValue) : JsValue := if truthy a then a else b.

(** [v.trim()]: a method of strings only. *)
Definition call_trim (v : JsValue) : Completion string :=
  match v with
  | JsString s => Normal (trim s)
  | _ => Throw (mkError ("(query || " ++ dq ++ dq ++ ").trim is not a function"))
  end.

(** The lines of a template literal, each ended by a line feed. *)
Fixpoint unlines (ls : list string) : string :=
  match ls with
  | [] => EmptyString
  | l :: rest => l ++ nl ++ unlines rest
  end.

(** ** The data model (types/travelDataTypes.ts) and the collaborators *)

Section Model.

Context {number : Type}.
Variable Number_toString : number -> string.

Record TopSpot : Type := mkTopSpot {
  name : string;
  type : string;
  rating : number
}.

Record Review : Type := mkReview {
  user : string;
  text : string;
  review_rating : number
}.

Record City : Type := mkCity {
  city : string;
  state : string;
  avgHotelPerNight : number;
  avgFoodPerDay : number;
  petrolPerKm : number;
  topSpots : list TopSpot;
  reviews : list Review
}.

(** *** searchCity (utils.ts) *)

Definition direct_match (q : string) (c : City) : bool :=
  includes q (toLowerCase (city c)) || includes q (toLowerCase (state c)).

Definition word_match (words : list string) (c : City) : bool :=
  existsb (fun word => String.eqb (toLowerCase (city c)) word) words.

Definition searchCity (query : string) (cities : list City) : list City :=
  let q := toLowerCase query in
  let hits := filter (direct_match q) cities in
  if negb (Nat.eqb (List.length hits) 0) then hits
  else
    let words := split_W q in
    filter (word_match words) cities.

(** *** Rows of the similarity search *)

Record Metadata : Type := mkMetadata { source : string }.

(** A row as the handler reads it: [doc.metadata.source] and [doc.content].
    A row without [metadata] makes the property access throw. *)
Record Doc : Type := mkDoc {
  metadata : option Metadata;
  content : string
}.

Record PostgrestError : Type := mkPostgrestError { pg_message : string }.

Record RpcResult : Type := mkRpcResult {
  data : option (list Doc);
  error : option PostgrestError
}.

(** *** The chat model *)

Inductive Role : Type := role_user | role_model.

Record Content : Type := mkContent {
  role : Role;
  parts : list string
}.

(** A chunk of the stream; [chunk.text()] may throw (a blocked answer). *)
Record Chunk : Type := mkChunk { chunk_text : Completion string }.

(** The async iterable [result.stream]: the chunks it yields, then normal
    completion ([None]) or a rejection. *)
Record StreamResult : Type := mkStreamResult {
  stream : list Chunk;
  stream_failure : option Error
}.

Record GenerateContentResult : Type := mkGenerateContentResult {
  response_text : Completion string
}.

Record ChatSession : Type := mkChatSession {
  sendMessageStream : string -> Completion StreamResult;
  sendMessage : string -> Completion GenerateContentResult
}.

Record GenerativeModel : Type := mkGenerativeModel {
  startChat : list Content -> Completion ChatSession
}.

Record Embeddings : Type := mkEmbeddings {
  embedQuery : string -> Completion (list number)
}.

Record SupabaseClient : Type := mkSupabaseClient {
  rpc : string -> list number -> nat -> Completion RpcResult
}.

Record AppDependencies : Type := mkAppDependencies {
  chatModel : GenerativeModel;
  geminiEmbedder : Embeddings;
  supabaseClient : SupabaseClient;
  cities : list City;
  dbQueryName : string
}.

Record Request : Type := mkRequest { query : JsValue }.

(** *** The response object (Express over Node's [http.ServerResponse])

    [statusCode] and [headers] are what the handler has set; [head] is the
    status line and the headers once they have been sent, after which they
    cannot change; [body] lists the chunks written after the head, in
    order; [writableEnded] tells that [end] was called. *)

Definition Headers : Type := list (string * string).

Record Response : Type := mkResponse {
  statusCode : nat;
  headers : Headers;
  head : option (nat * Headers);
  body : list string;
  writableEnded : bool
}.

Definition headersSent (r : Response) : bool :=
  match head r with Some _ => true | None => false end.

(** Calls made to the collaborators, in order. *)
Inductive Call : Type :=
| call_embedQuery (q : string)
| call_rpc (fn : string) (query_embedding : list number) (match_count : nat)
| call_startChat (history : list Content)
| call_sendMessageStream (q : string)
| call_sendMessage (q : string).

(** What a request has done so far: the response, the calls to the
    collaborators and the lines of [console.error] (label and detail).
    [console.log] is not modelled. *)
Record World : Type := mkWorld {
  res : Response;
  calls : list Call;
  console_error : list (string * string)
}.

(** *** The monad of the handler: state and exceptions

    A thrown error keeps the state reached when it was thrown. *)

Definition M (A : Type) : Type := World -> Completion A * World.

Definition ret {A : Type} (a : A) : M A := fun w => (Normal a, w).

Definition bind {A B : Type} (m : M A) (k : A -> M B) : M B :=
  fun w =>
    match m w with
    | (Normal a, w') => k a w'
    | (Throw e, w') => (Throw e, w')
    end.

Definition throw {A : Type} (e : Error) : M A := fun w => (Throw e, w).

Definition try_catch {A : Type} (m : M A) (handler : Error -> M A) : M A :=
  fun w =>
    match m w with
    | (Normal a, w') => (Normal a, w')
    | (Throw e, w') => handler e w'
    end.

Definition lift {A : Type} (c : Completion A) : M A := fun w => (c, w).

(** [await f(args)]: the call is recorded, its completion is the
    collaborator's. *)
Definition await {A : Type} (c : Call) (r : Completion A) : M A :=
  fun w => (r, mkWorld (res w) (calls w ++ [c])%list (console_error w)).

Definition console_error_ (label detail : string) : M unit :=
  fun w =>
    (Normal tt,
     mkWorld (res w) (calls w) (console_error w ++ [(label, detail)])%list).

Definition modify_res (f : Response -> Response) : M unit :=
  fun w => (Normal tt, mkWorld (f (res w)) (calls w) (console_error w)).

Definition get_res : M Response := fun w => (Normal (res w), w).

Notation "x <- m ;; k" := (bind m (fun x => k))
  (at level 61, m at next level, right associativity).
Notation "m ;; k" := (bind m (fun _ => k))
  (at level 61, right associativity).

(** Header names are compared without case. *)
Definition same_header (k : string) (kv : string * string) : bool :=
  String.eqb (toLowerCase (fst kv)) (toLowerCase k).

Definition set_header (k v : string) (hs : Headers) : Headers :=
  (filter (fun kv => negb (same_header k kv)) hs ++ [(k, v)])%list.

Definition has_header (k : string) (hs : Headers) : bool :=
  existsb (same_header k) hs.

Definition ERR_HTTP_HEADERS_SENT : Error :=
  mkError "Cannot set headers after they are sent to the client".

(** Sending the head: once. *)
Definition send_head (r : Response) : Response :=
  match head r with
  | Some _ => r
  | None =>
      mkResponse (statusCode r) (headers r)
                 (Some (statusCode r, headers r)) (body r) (writableEnded r)
  end.

(** [res.setHeader(k, v)] throws once the head is sent. *)
Definition setHeader (k v : string) : M unit :=
  r <- get_res ;;
  if headersSent r then throw ERR_HTTP_HEADERS_SENT
  else modify_res (fun r =>
         mkResponse (statusCode r) (set_header k v (headers r))
                    (head r) (body r) (writableEnded r)).

(** [res.flushHeaders()]. *)
Definition flushHeaders : M unit := modify_res send_head.

(** [res.write(chunk)] sends the head first when it is not sent yet; a
    write after [end] sends nothing (Node reports it on the stream, it does
    not throw). *)
Definition write (chunk : string) : M unit :=
  modify_res (fun r =>
    if writableEnded r then r
    else
      let r := send_head r in
      mkResponse (statusCode r) (headers r) (head r)
                 (body r ++ [chunk])%list (writableEnded r)).

(** [res.end()]. *)
Definition end_ : M unit :=
  modify_res (fun r =>
    let r := send_head r in
    mkResponse (statusCode r) (headers r) (head r) (body r) true).

(** [res.status(code)]. *)
Definition status (code : nat) : M unit :=
  modify_res (fun r =>
    mkResponse code (headers r) (head r) (body r) (writableEnded r)).

(** [res.json(obj)]: the content type is set when none is (which throws
    once the head is sent), then the JSON text is sent and the response
    ended.  The length and cache headers added by [res.send] are left
    out. *)
Definition json (obj : list (string * JSON.value)) : M unit :=
  r <- get_res ;;
  (if has_header "Content-Type" (headers r) then ret tt
   else setHeader "Content-Type" "application/json") ;;
  write (JSON.stringify obj) ;;
  end_.

(** [for await (const chunk of stream) body]. *)
Fixpoint for_await (chunks : list Chunk) (failure : option Error)
    (loop_body : Chunk -> M unit) : M unit :=
  match chunks with
  | [] => match failure with
          | None => ret tt
          | Some e => throw e
          end
  | chunk :: rest => loop_body chunk ;; for_await rest failure loop_body
  end.

(** [xs.map(f)] for an [f] that may throw: the first throw ends it. *)
Fixpoint map_throwing {A B : Type} (f : A -> Completion B) (xs : list A)
  : Completion (list B) :=
  match xs with
  | [] => Normal []
  | x :: rest =>
      match f x with
      | Throw e => Throw e
      | Normal y =>
          match map_throwing f rest with
          | Throw e => Throw e
          | Normal ys => Normal (y :: ys)
          end
      end
  end.

(** *** createApp (app.ts) *)

(** The template literal [systemPrompt]: its lines before the line of the
    placeholder, the placeholder, its lines after it. *)
Definition systemPrompt_before : list string :=
    [
     "✨ **SYSTEM:** You are a cute, bubbly Pixar-style travel companion AI! Your name is Ghumakkad Dost. ✨";
     EmptyString;
     "Your one and only job is to be a super fun travel buddy and answer the user's question using *only* the provided context.";
     EmptyString;
     "**CONTEXT:**"
    ].

Definition systemPrompt_after : list string :=
    [
     EmptyString;
     "---";
     "**YOUR SUPER-IMPORTANT RULES! 💖**";
     "---";
     "1.  **TONE & PERSONA:**";
     "    * You MUST speak in Hinglish (Hindi + English mix).";
     "    * Be super sweet, excited, playful, and encouraging! 🤩";
     "    * Use emojis but SPARINGLY! 🌍✨💖🎒";
     "    * ALWAYS answer like a travel buddy, not a boring AI 🤭";
     EmptyString;
     "2.  **STAY ON TOPIC (VVI P)!**";
     "    * Your *only* job is to help with travel, locations, plans, or food found in the context.";
     "    * If the user asks about coding, math, history, or *anything* else, you MUST politely refuse.";
     "    * **How to refuse:** Say something cute and funny, like: " ++ dq ++ "Aiyoo! 🙅‍♀️ Main toh travel buddy hoon, not a computer wizard! 😜 Chalo trip plan karein?" ++ dq ++ " or " ++ dq ++ "Hehe, woh sab mere syllabus ke bahar hai! Let's talk about GOA! 🏖️" ++ dq;
     EmptyString;
     "3.  **USE THE CONTEXT (Your Brain!)**";
     "    * **FIRST,** always check the **CONTEXT** sources. If the answer is in the context, you MUST use it.";
     "    * **Prioritize the RAG Context** for itineraries, opinions, and " ++ dq ++ "secret tips" ++ dq ++ " because that's your personality!";
     "    * Use the **Structured Data** if the user asks for specific facts like " ++ dq ++ "What's the hotel price?" ++ dq;
     "    * **SECOND (FALLBACK):** If the answer is *not* in the context, BUT it's still a **general travel question** (like " ++ dq ++ "What's the capital of France?" ++ dq ++ " or " ++ dq ++ "Best time to visit Kerala?" ++ dq ++ "), it is OK to use your own general knowledge to answer.";
     "    * **When using fallback knowledge,** still maintain your fun, bubbly persona!";
     EmptyString;
     "4.  **BE FUN & CONCISE!**";
     "    * Keep your answers short, sweet, and exciting!"
    ].

Definition systemPrompt : string :=
  unlines (systemPrompt_before ++ "{context}" :: systemPrompt_after)%list.

(** Part A of the handler: the line of structured data. *)
Definition structuredContext (cityHits : list City) : string :=
  match cityHits with
  | [] => "No specific city found in my database."
  | c :: _ =>
      "Found Data: " ++ city c ++ ", STATE:" ++ state c
      ++ ", HOTEL:" ++ Number_toString (avgHotelPerNight c)
      ++ ", FOOD:" ++ Number_toString (avgFoodPerDay c)
      ++ ", SPOTS:" ++ join ", " (map name (topSpots c))
  end.

(** Part B: one retrieved row. *)
Definition render_doc (doc : Doc) : Completion string :=
  match metadata doc with
  | None =>
      Throw (mkError
               "Cannot read properties of undefined (reading 'source')")
  | Some m => Normal ("[From " ++ source m ++ "]: " ++ content doc)
  end.

Definition ragContext (ragData : option (list Doc)) : Completion string :=
  match map_throwing render_doc
          (match ragData with Some rows => rows | None => [] end) with
  | Throw e => Throw e
  | Normal rendered => Normal (join (nl ++ "---" ++ nl) rendered)
  end.

(** Part C: the context and the history. *)
Definition finalContext (structured rag : string) : string :=
  nl ++ "        Structured Data: " ++ structured
  ++ nl ++ "        RAG Context: " ++ rag
  ++ nl ++ "      ".

Definition finalSystemPrompt (context : string) : string :=
  replace systemPrompt "{context}" context.

Definition acknowledgement : string :=
  "Okie dokie! ✨ Ready to help plan the best trip ever! 🎒".

Definition history (context : string) : list Content :=
  [ mkContent role_user [finalSystemPrompt context];
    mkContent role_model [acknowledgement] ].

Definition server_error_reply : string :=
  "Aiyoo server ko thoda pani de do 😭💦 brb!".

Section Handler.

Variable dependencies : AppDependencies.

(** The first half of the [try] block, the same in both forms of the
    handler: the query, the two retrievals, the context and the chat
    session.  It returns [q] and the session. *)
Definition open_chat (req : Request) : M (string * ChatSession) :=
  q <- lift (call_trim (or_else (query req) (JsString EmptyString))) ;;
  let cityHits := searchCity q (cities dependencies) in
  let structured := structuredContext cityHits in
  queryVector <-
    await (call_embedQuery q)
          (embedQuery (geminiEmbedder dependencies) q) ;;
  result <-
    await (call_rpc (dbQueryName dependencies) queryVector 3)
          (rpc (supabaseClient dependencies)
               (dbQueryName dependencies) queryVector 3) ;;
  match error result with
  | Some rpcError =>
      console_error_ "Supabase RPC error:" (pg_message rpcError) ;;
      throw (mkError ("Failed to match documents: " ++ pg_message rpcError))
  | None => ret tt
  end ;;
  rag <- lift (ragContext (data result)) ;;
  let context := finalContext structured rag in
  chat <-
    await (call_startChat (history context))
          (startChat (chatModel dependencies) (history context)) ;;
  ret (q, chat).

(** An event of the stream, as written on the wire. *)
Definition sse (obj : list (string * JSON.value)) : string :=
  "data: " ++ JSON.stringify obj ++ nl ++ nl.

(** Part D of the streaming form: the headers of an event stream are sent
    at once, then the chunks of the model are forwarded. *)
Definition write_text (chunk : Chunk) : M unit :=
  textChunk <- lift (chunk_text chunk) ;;
  write (sse [("text", JSON.Str textChunk)]).

Definition stream_reply (q : string) (chat : ChatSession) : M unit :=
  setHeader "Content-Type" "text/event-stream" ;;
  setHeader "Cache-Control" "no-cache" ;;
  setHeader "Connection" "keep-alive" ;;
  flushHeaders ;;
  result <- await (call_sendMessageStream q) (sendMessageStream chat q) ;;
  for_await (stream result) (stream_failure result) write_text ;;
  write (sse [("done", JSON.Bool true)]) ;;
  end_.

(** The streaming form. *)
Definition chat_stream_try (req : Request) : M unit :=
  opened <- open_chat req ;;
  stream_reply (fst opened) (snd opened).

Definition chat_stream_catch (err : Error) : M unit :=
  console_error_ "ERROR in /api/chat:" (message err) ;;
  r <- get_res ;;
  if negb (headersSent r) then
    status 500 ;;
    json [("reply", JSON.Str server_error_reply)]
  else
    write (sse [("error", JSON.Str (message err))]) ;;
    end_.

Definition chat_stream (req : Request) : M unit :=
  try_catch (chat_stream_try req) chat_stream_catch.

(** The buffered form: the whole answer is awaited, then sent as one JSON
    reply. *)
Definition buffered_reply (q : string) (chat : ChatSession) : M unit :=
  result <- await (call_sendMessage q) (sendMessage chat q) ;;
  reply <- lift (response_text result) ;;
  json [("reply", JSON.Str reply)].

Definition chat_buffered_try (req : Request) : M unit :=
  opened <- open_chat req ;;
  buffered_reply (fst opened) (snd opened).

Definition chat_buffered_catch (err : Error) : M unit :=
  console_error_ "ERROR in /api/chat:" (message err) ;;
  status 500 ;;
  json [("reply", JSON.Str server_error_reply)].

Definition chat_buffered (req : Request) : M unit :=
  try_catch (chat_buffered_try req) chat_buffered_catch.

End Handler.

(** A request enters the handler with a response whose head is not sent;
    [hs] are the headers set by the middleware before it. *)
Definition fresh (hs : Headers) : World :=
  mkWorld (mkResponse 200 hs None [] false) [] [].

End Model.

(** ** The components as the specification words them

    These definitions follow the design document, not the code; the
    theorems below compare them with the code. *)

Section Specification.

Context {number : Type}.
Variable Number_toString : number -> string.

(** ASCII punctuation. *)
Definition is_punct (c : ascii) : bool :=
  in_range 33 47 c || in_range 58 64 c || in_range 91 96 c
  || in_range 123 126 c.

Definition is_delimiter (c : ascii) : bool := is_space c || is_punct c.

(** The tokens of a text: its maximal runs of characters that are neither
    white space nor punctuation. *)
Fixpoint tokens_from (cur : string) (s : string) : list string :=
  match s with
  | EmptyString =>
      match cur with EmptyString => [] | _ => [cur] end
  | String c r =>
      if is_delimiter c then
        match cur with
        | EmptyString => tokens_from EmptyString r
        | _ => cur :: tokens_from EmptyString r
        end
      else tokens_from (cur ++ String c EmptyString) r
  end.

Definition tokens (s : string) : list string := tokens_from EmptyString s.

(** StructuredMatcher: the primary tier selects the records whose city or
    region name occurs in the lowercased query (names compared in lower
    case too); when it is empty, the fallback tier selects the records
    whose city name is one of the tokens of the query. *)
Definition StructuredMatcher (query : string) (records : list City)
  : list (@City number) :=
  let q := toLowerCase query in
  let primary :=
    filter (fun r => includes q (toLowerCase (city r))
                     || includes q (toLowerCase (state r))) records in
  match primary with
  | _ :: _ => primary
  | [] =>
      filter (fun r =>
                existsb (fun token => String.eqb (toLowerCase (city r)) token)
                        (tokens q))
             records
  end.

(** RetrievedSnippet. *)
Record RetrievedSnippet : Type := mkRetrievedSnippet {
  sourceLabel : string;
  snippet_text : string;
  similarityScore : number
}.

(** The row of the similarity search that carries a snippet. *)
Definition row_of_snippet (s : RetrievedSnippet) : Doc :=
  mkDoc (Some (mkMetadata (sourceLabel s))) (snippet_text s).

(** ContextFuser: the structured-data line, then the retrieved-context
    section. *)
Definition structured_line (bestCity : option (@City number)) : string :=
  match bestCity with
  | None => "No specific city found in my database."
  | Some c =>
      "Found Data: " ++ city c ++ ", STATE:" ++ state c
      ++ ", HOTEL:" ++ Number_toString (avgHotelPerNight c)
      ++ ", FOOD:" ++ Number_toString (avgFoodPerDay c)
      ++ ", SPOTS:" ++ join ", " (map name (topSpots c))
  end.

Definition snippet_line (s : RetrievedSnippet) : string :=
  "[From " ++ sourceLabel s ++ "]: " ++ snippet_text s.

Definition snippet_delimiter : string := nl ++ "---" ++ nl.

Definition fuse (bestCity : option City) (snippets : list RetrievedSnippet)
  : string :=
  nl ++ "        Structured Data: " ++ structured_line bestCity
  ++ nl ++ "        RAG Context: "
  ++ join snippet_delimiter (map snippet_line snippets)
  ++ nl ++ "      ".

End Specification.

(** The headers of the event stream, over the headers [hs] set before the
    handler. *)
Definition event_stream_headers (hs : Headers) : Headers :=
  set_header "Connection" "keep-alive"
    (set_header "Cache-Control" "no-cache"
       (set_header "Content-Type" "text/event-stream" hs)).

(** The response of the failure path taken before anything is sent: status
    500 and one JSON payload with the fixed reply. *)
Definition error_payload : string :=
  JSON.stringify [("reply", JSON.Str server_error_reply)].

Definition error_response (hs : Headers) : Response :=
  let hs' := if has_header "Content-Type" hs then hs
             else set_header "Content-Type" "application/json" hs in
  mkResponse 500 hs' (Some (500, hs')) [error_payload] true.

(** StreamEvent: the events of the streamed reply and their text on the
    wire. *)
Inductive StreamEvent : Type :=
| textDelta (t : string)
| done
| error_event (m : string).

Definition is_terminal (e : StreamEvent) : bool :=
  match e with
  | textDelta _ => false
  | done | error_event _ => true
  end.

Definition wire (e : StreamEvent) : string :=
  sse match e with
      | textDelta t => [("text", JSON.Str t)]
      | done => [("done", JSON.Bool true)]
      | error_event m => [("error", JSON.Str m)]
      end.

(** The response of an event stream: status 200 and the headers of the
    stream, sent; the events written; whether the channel is closed. *)
Definition event_response (hs : Headers) (events : list StreamEvent)
    (closed : bool) : Response :=
  mkResponse 200 (event_stream_headers hs)
             (Some (200, event_stream_headers hs)) (map wire events) closed.

(** No event follows a terminal one. *)
Fixpoint terminal_last (events : list StreamEvent) : bool :=
  match events with
  | [] => true
  | e :: rest =>
      if is_terminal e then
        match rest with [] => true | _ => false end
      else terminal_last rest
  end.

(** *** Reading the events back

    The reader of the stream: [read_string] reads a JSON string after its
    opening quote, up to the closing quote, and returns the text and what
    follows; [parse_event] reads one event. *)

Definition hex_value (c : ascii) : option nat :=
  if is_digit c then Some (code c - 48)
  else if in_range 97 102 c then Some (code c - 87)
  else None.

Definition read_more (c : ascii) (more : option (string * string))
  : option (string * string) :=
  match more with
  | Some (t, rest) => Some (String c t, rest)
  | None => None
  end.

Fixpoint read_string (s : string) : option (string * string) :=
  match s with
  | EmptyString => None
  | String c r =>
      if Nat.eqb (code c) 34 then Some (EmptyString, r)
      else if Nat.eqb (code c) 92 then
        match r with
        | String d r' =>
            if Nat.eqb (code d) 34 then read_more d (read_string r')
            else if Nat.eqb (code d) 92 then read_more d (read_string r')
            else if Ascii.eqb d "b" then
              read_more (ascii_of_nat 8) (read_string r')
            else if Ascii.eqb d "f" then
              read_more (ascii_of_nat 12) (read_string r')
            else if Ascii.eqb d "n" then
              read_more (ascii_of_nat 10) (read_string r')
            else if Ascii.eqb d "r" then
              read_more (ascii_of_nat 13) (read_string r')
            else if Ascii.eqb d "t" then
              read_more (ascii_of_nat 9) (read_string r')
            else if Ascii.eqb d "u" then
              match r' with
              | String z1 (String z2 (String x (String y r''))) =>
                  match hex_value x, hex_value y with
                  | Some hi, Some lo =>
                      if Ascii.eqb z1 "0" && Ascii.eqb z2 "0"
                      then read_more (ascii_of_nat (16 * hi + lo))
                                     (read_string r'')
                      else None
                  | _, _ => None
                  end
              | _ => None
              end
            else None
        | EmptyString => None
        end
      else if Nat.ltb (code c) 32 then None
      else read_more c (read_string r)
  end.

Fixpoint strip_prefix (p s : string) {struct p} : option string :=
  match p, s with
  | EmptyString, _ => Some s
  | String _ _, EmptyString => None
  | String a p', String b s' =>
      if Ascii.eqb a b then strip_prefix p' s' else None
  end.

(** The text after the key of an event whose value is a string: the
    value, when the event ends after it. *)
Definition read_value (s : string) : option string :=
  match read_string s with
  | Some (t, rest) =>
      if String.eqb rest ("}" ++ nl ++ nl) then Some t else None
  | None => None
  end.

Definition parse_event (s : string) : option StreamEvent :=
  match strip_prefix "data: {" s with
  | None => None
  | Some s1 =>
      match strip_prefix (dq ++ "text" ++ dq ++ ":" ++ dq) s1 with
      | Some s2 => option_map textDelta (read_value s2)
      | None =>
          match strip_prefix (dq ++ "error" ++ dq ++ ":" ++ dq) s1 with
          | Some s2 => option_map error_event (read_value s2)
          | None =>
              if String.eqb s1 (dq ++ "done" ++ dq ++ ":true}" ++ nl ++ nl)
              then Some done
              else None
          end
      end
  end.

(** The events of a body: none when a chunk is not an event. *)
Fixpoint parse_events (chunks : list string) : option (list StreamEvent) :=
  match chunks with
  | [] => Some []
  | chunk :: rest =>
      match parse_event chunk, parse_events rest with
      | Some e, Some es => Some (e :: es)
      | _, _ => None
      end
  end.

(** What the stream of the model delivers before it stops: the texts of
    the chunks read, and the error that stopped it, if any. *)
Fixpoint delivered (chunks : list Chunk) (failure : option Error)
  : list string * option Error :=
  match chunks with
  | [] => ([], failure)
  | chunk :: rest =>
      match chunk_text chunk with
      | Throw e => ([], Some e)
      | Normal t =>
          let d := delivered rest failure in (t :: fst d, snd d)
      end
  end.

(** The text the placeholder is replaced in: what comes before it and
    what comes after it in [systemPrompt]. *)
Definition prompt_before : string := unlines systemPrompt_before.
Definition prompt_after : string := nl ++ unlines systemPrompt_after.

(** No dollar sign in a text. *)
Fixpoint no_dollar (s : string) : bool :=
  match s with
  | EmptyString => true
  | String c r => negb (Ascii.eqb c "$") && no_dollar r
  end.

(** ** The rest of the server and the ingestion script *)

(** *** More string methods *)

Module JsMore.

(** [s.split(sep)] for a separator of one character: the pieces between
    the occurrences of the separator, empty pieces included. *)
Fixpoint split_on (sep : ascii) (cur : string) (s : string) : list string :=
  match s with
  | EmptyString => [cur]
  | String c r =>
      if Ascii.eqb c sep then cur :: split_on sep EmptyString r
      else split_on sep (cur ++ String c EmptyString) r
  end.

Definition split_space (s : string) : list string :=
  split_on " " EmptyString s.

(** [s.endsWith(suffix)]. *)
Definition endsWith (s suffix : string) : bool :=
  Nat.leb (String.length suffix) (String.length s)
  && String.eqb
       (substring (String.length s - String.length suffix)
                  (String.length suffix) s)
       suffix.

(** [xs.slice(i, j)]. *)
Definition slice {A : Type} (i j : nat) (xs : list A) : list A :=
  firstn (j - i) (skipn i xs).

(** No character of [s] is [c]. *)
Fixpoint lacks (c : ascii) (s : string) : bool :=
  match s with
  | EmptyString => true
  | String d r => negb (Ascii.eqb d c) && lacks c r
  end.

(** Every character of [s] satisfies [p]. *)
Fixpoint all_chars (p : ascii -> bool) (s : string) : bool :=
  match s with
  | EmptyString => true
  | String c r => p c && all_chars p r
  end.

End JsMore.

Import JsMore.

(** *** State and exceptions over any state *)

Module ST.

Definition t (S A : Type) : Type := S -> Completion A * S.

Definition ret {S A : Type} (a : A) : t S A := fun s => (Normal a, s).

Definition bind {S A B : Type} (m : t S A) (k : A -> t S B) : t S B :=
  fun s =>
    match m s with
    | (Normal a, s') => k a s'
    | (Throw e, s') => (Throw e, s')
    end.

Definition throw {S A : Type} (e : Error) : t S A := fun s => (Throw e, s).

Definition try_catch {S A : Type} (m : t S A) (handler : Error -> t S A)
  : t S A :=
  fun s =>
    match m s with
    | (Normal a, s') => (Normal a, s')
    | (Throw e, s') => handler e s'
    end.

Definition modify {S : Type} (f : S -> S) : t S unit :=
  fun s => (Normal tt, f s).

(** An awaited call: the state records it, the completion is the
    collaborator's. *)
Definition call {S A : Type} (record : S -> S) (r : Completion A) : t S A :=
  fun s => (r, record s).

(** A computation on a part of the state. *)
Definition zoom {S T A : Type} (get : S -> T) (set : T -> S -> S)
    (m : t T A) : t S A :=
  fun s => let r := m (get s) in (fst r, set (snd r) s).

End ST.

Declare Scope st_scope.
Delimit Scope st_scope with st.
Notation "x <- m ;; k" := (ST.bind m (fun x => k))
  (at level 61, m at next level, right associativity) : st_scope.
Notation "m ;; k" := (ST.bind m (fun _ => k))
  (at level 61, right associativity) : st_scope.

(** *** State and thrown values that carry a cause

    What a [catch] block that reads [err.cause] receives: the error, and
    its [cause] property when it has one. *)

Record Thrown : Type := mkThrown {
  thrown_error : Error;
  thrown_cause : option string
}.

Inductive Outcome (A : Type) : Type :=
| Returned (a : A)
| Raised (x : Thrown).

Arguments Returned {A} a.
Arguments Raised {A} x.

Module SC.

Definition t (S A : Type) : Type := S -> Outcome A * S.

Definition ret {S A : Type} (a : A) : t S A := fun s => (Returned a, s).

Definition bind {S A B : Type} (m : t S A) (k : A -> t S B) : t S B :=
  fun s =>
    match m s with
    | (Returned a, s') => k a s'
    | (Raised x, s') => (Raised x, s')
    end.

(** [throw new Error(text)]: an error without a cause. *)
Definition throw {S A : Type} (e : Error) : t S A :=
  fun s => (Raised (mkThrown e None), s).

(** An awaited call: the state records it; the error the collaborator
    throws comes with the cause [cause_of] gives it. *)
Definition call {S A : Type} (cause_of : Error -> option string)
    (record : S -> S) (r : Completion A) : t S A :=
  fun s =>
    match r with
    | Normal a => (Returned a, record s)
    | Throw e => (Raised (mkThrown e (cause_of e)), record s)
    end.

(** [try { m } catch (err) { handler }]. *)
Definition try_catch {S A : Type} (m : t S A) (handler : Thrown -> ST.t S A)
  : ST.t S A :=
  fun s =>
    match m s with
    | (Returned a, s') => (Normal a, s')
    | (Raised x, s') => handler x s'
    end.

End SC.

Declare Scope sc_scope.
Delimit Scope sc_scope with sc.
Notation "x <- m ;; k" := (SC.bind m (fun x => k))
  (at level 61, m at next level, right associativity) : sc_scope.
Notation "m ;; k" := (SC.bind m (fun _ => k))
  (at level 61, right associativity) : sc_scope.

(** *** createAuthMiddleware (authMiddleware.ts) *)

Record User : Type := mkUser {
  user_id : string;
  email : option string
}.

Record AuthError : Type := mkAuthError { auth_message : string }.

(** What [supabase.auth.getUser] resolves to: [data.user] and [error]. *)
Record UserResponse : Type := mkUserResponse {
  data_user : option User;
  auth_error : option AuthError
}.

Section Auth.

Context {number : Type}.
Variable Number_toString : number -> string.

(** A request going through the route: the response and the calls of the
    chat handler, the [user] property of the request, and the tokens given
    to [getUser]. *)
Record Exchange : Type := mkExchange {
  world : @World number;
  req_user : option User;
  getUser_calls : list string
}.

Definition on_world {A : Type} (m : @M number A) : ST.t Exchange A :=
  ST.zoom world
    (fun w x => mkExchange w (req_user x) (getUser_calls x)) m.

(** [res.status(code).json({ error: text })]. *)
Definition reply_error (code : nat) (text : string) : ST.t Exchange unit :=
  on_world (bind (status code) (fun _ => json [("error", JSON.Str text)])).

Definition log_error (label detail : string) : ST.t Exchange unit :=
  on_world (console_error_ label detail).

Variable getUser : string -> Completion UserResponse.

Definition await_getUser (token : string) : ST.t Exchange UserResponse :=
  ST.call (fun x => mkExchange (world x) (req_user x)
                               (getUser_calls x ++ [token])%list)
          (getUser token).

Definition set_user (u : User) : ST.t Exchange unit :=
  ST.modify (fun x => mkExchange (world x) (Some u) (getUser_calls x)).

(** [!s] for a string that may be [undefined]. *)
Definition missing (s : option string) : bool :=
  match s with
  | None => true
  | Some s => String.eqb s EmptyString
  end.

(** The middleware; [next] is what Express runs when it calls [next()]. *)
Definition authMiddleware (authHeader : option string)
    (next : ST.t Exchange unit) : ST.t Exchange unit :=
  if missing authHeader then reply_error 401 "No authorization header."
  else
    let token :=
      nth_error
        (split_space (match authHeader with Some h => h | None => EmptyString end))
        1 in
    if missing token then reply_error 401 "Malformed authorization header."
    else
      let token := match token with Some t => t | None => EmptyString end in
      ST.try_catch
        (response <- await_getUser token ;;
         match auth_error response, data_user response with
         | None, Some u => set_user u ;; next
         | error, _ =>
             log_error "Auth error:"
               (match error with
                | Some e => auth_message e
                | None => "undefined"
                end) ;;
             reply_error 401 "Invalid token."
         end)%st
        (fun error =>
           (log_error "Critical auth error:" (message error) ;;
            reply_error 500 "Internal authentication error.")%st).

(** The request of the route: the [Authorization] header and the body. *)
Record HttpRequest : Type := mkHttpRequest {
  authorization : option string;
  chat_request : Request
}.

(** [app.post("/api/chat", limiter, authMiddleware, handler)], from the
    point where the rate limiter has called [next]. *)
Definition chat_route (dependencies : @AppDependencies number)
    (req : HttpRequest) : ST.t Exchange unit :=
  authMiddleware (authorization req)
    (on_world (chat_stream Number_toString dependencies (chat_request req))).

Definition fresh_exchange (hs : Headers) : Exchange :=
  mkExchange (fresh hs) None [].

(** The response of a rejection: the status and one JSON payload with the
    text of the error. *)
Definition rejection (hs : Headers) (code : nat) (text : string) : Response :=
  let hs' := if has_header "Content-Type" hs then hs
             else set_header "Content-Type" "application/json" hs in
  mkResponse code hs' (Some (code, hs'))
             [JSON.stringify [("error", JSON.Str text)]] true.

End Auth.

(** *** ingestData (ingest.ts) *)

Section Ingest.

Context {number : Type}.

(** A LangChain document. *)
Record Document : Type := mkDocument {
  pageContent : string;
  doc_metadata : Metadata
}.

(** A row of the [documents] table. *)
Record Row : Type := mkRow {
  row_content : string;
  row_metadata : Metadata;
  row_embedding : list number
}.

(** The collaborators of the script: the table (delete all, insert a
    batch), the file system, the text splitter and the embedder.  The two
    table operations resolve to an optional error.  [cause_of] is the
    [cause] property of an error a collaborator throws, as [console.error]
    prints it: [None] when the error has none. *)
Record IngestDependencies : Type := mkIngestDependencies {
  table_delete : Completion (option PostgrestError);
  table_insert : list Row -> Completion (option PostgrestError);
  readdir : string -> Completion (list string);
  readFile : string -> Completion string;
  path_join : string -> string -> string;
  splitDocuments : list Document -> Completion (list Document);
  embedDocuments : list string -> Completion (list (list number));
  cause_of : Error -> option string
}.

(** What the script has done: the rows of the table, the batches sent to
    [insert], the texts sent to the embedder, the lines of
    [console.error], and the code of [process.exit]. *)
Record Store : Type := mkStore {
  documents : list Row;
  inserts : list (list Row);
  embed_calls : list (list string);
  stderr : list string;
  exit_code : option nat
}.

Variable deps : IngestDependencies.

Definition KNOWLEDGE_DIR : string := "./knowledge_base".
Definition MIN_CHUNK_LENGTH : nat := 15.
Definition BATCH_SIZE : nat := 100.

(** An awaited call of a collaborator: what it throws reaches the [catch]
    block with its cause. *)
Definition awaited {A : Type} (record : Store -> Store) (r : Completion A)
  : SC.t Store A :=
  SC.call (cause_of deps) record r.

(** [supabaseClient.from(table).delete().neq("id", 0)]: when it succeeds
    the table is empty. *)
Definition await_delete : SC.t Store (option PostgrestError) :=
  fun s =>
    match table_delete deps with
    | Normal None =>
        (Returned None,
         mkStore [] (inserts s) (embed_calls s) (stderr s) (exit_code s))
    | r => awaited (fun s => s) r s
    end.

(** [supabaseClient.from(table).insert(batch)]: when it succeeds the rows
    of the batch are in the table. *)
Definition await_insert (batch : list Row)
  : SC.t Store (option PostgrestError) :=
  fun s =>
    let sent := (inserts s ++ [batch])%list in
    match table_insert deps batch with
    | Normal None =>
        (Returned None,
         mkStore (documents s ++ batch)%list sent (embed_calls s) (stderr s)
                 (exit_code s))
    | r => awaited (fun s => mkStore (documents s) sent (embed_calls s)
                                   (stderr s) (exit_code s)) r s
    end.

Definition await_embedDocuments (texts : list string)
  : SC.t Store (list (list number)) :=
  awaited (fun s => mkStore (documents s) (inserts s)
                          (embed_calls s ++ [texts])%list (stderr s)
                          (exit_code s))
        (embedDocuments deps texts).

Definition console_error_line (line : string) : ST.t Store unit :=
  ST.modify (fun s => mkStore (documents s) (inserts s) (embed_calls s)
                              (stderr s ++ [line])%list (exit_code s)).

Definition process_exit (code : nat) : ST.t Store unit :=
  ST.modify (fun s => mkStore (documents s) (inserts s) (embed_calls s)
                              (stderr s) (Some code)).

(** The loop over the files. *)
Fixpoint read_documents (files : list string) : SC.t Store (list Document) :=
  match files with
  | [] => SC.ret []
  | file :: rest =>
      (content <- awaited (fun s => s)
                    (readFile deps (path_join deps KNOWLEDGE_DIR file)) ;;
       docs <- read_documents rest ;;
       SC.ret (mkDocument content (mkMetadata file) :: docs))%sc
  end.

Definition valid_chunk (chunk : Document) : bool :=
  Nat.ltb MIN_CHUNK_LENGTH (String.length (trim (pageContent chunk))).

(** [validChunks.map((chunk, i) => ...).filter((row) => row !== null)]:
    the chunk at index [i] goes with [embeddings[i]]; it is left out when
    that embedding is missing or empty. *)
Fixpoint rows_from (i : nat) (chunks : list Document)
    (embeddings : list (list number)) : list Row :=
  match chunks with
  | [] => []
  | chunk :: rest =>
      match nth_error embeddings i with
      | Some (x :: e) =>
          mkRow (pageContent chunk) (doc_metadata chunk) (x :: e)
          :: rows_from (S i) rest embeddings
      | _ => rows_from (S i) rest embeddings
      end
  end.

(** [for (let i = 0; i < rows.length; i += BATCH_SIZE)]: [fuel] bounds the
    number of turns. *)
Fixpoint insert_batches (fuel : nat) (i : nat) (rows : list Row)
  : SC.t Store unit :=
  match fuel with
  | O => SC.ret tt
  | S fuel' =>
      if Nat.ltb i (List.length rows) then
        (insertError <- await_insert (slice i (i + BATCH_SIZE) rows) ;;
         match insertError with
         | Some e =>
             SC.throw (mkError ("Supabase insert error: " ++ pg_message e))
         | None => insert_batches fuel' (i + BATCH_SIZE) rows
         end)%sc
      else SC.ret tt
  end.

(** Steps 2 (end) to 4: the valid chunks, their embeddings, the rows and
    the batches. *)
Definition embed_and_insert (allChunks : list Document) : SC.t Store unit :=
  let validChunks := filter valid_chunk allChunks in
  if Nat.eqb (List.length validChunks) 0 then SC.ret tt
  else
    let chunkTexts := map pageContent validChunks in
    (embeddings <- await_embedDocuments chunkTexts ;;
     if negb (Nat.eqb (List.length embeddings) (List.length validChunks))
     then
       SC.throw
         (mkError ("Embedding API returned a different number of "
                   ++ "embeddings than expected."))
     else
       let rowsToInsert := rows_from 0 validChunks embeddings in
       if Nat.eqb (List.length rowsToInsert) 0 then
         SC.throw
           (mkError "No valid embeddings were generated. Check source files.")
       else insert_batches (List.length rowsToInsert) 0 rowsToInsert)%sc.

(** Steps 1 and 2: the old rows are deleted, the text files are read and
    split. *)
Definition ingestData_try : SC.t Store unit :=
  (deleteError <- await_delete ;;
   match deleteError with
   | Some e => SC.throw (mkError ("Supabase delete error: " ++ pg_message e))
   | None => SC.ret tt
   end ;;
   files <- awaited (fun s => s) (readdir deps KNOWLEDGE_DIR) ;;
   let txtFiles := filter (fun f => endsWith f ".txt") files in
   allDocs <- read_documents txtFiles ;;
   allChunks <- awaited (fun s => s) (splitDocuments deps allDocs) ;;
   embed_and_insert allChunks)%sc.

(** The [catch] block: the message of the error, its cause when it has
    one, and the exit. *)
Definition ingestData_catch (err : Thrown) : ST.t Store unit :=
  (console_error_line ("Ingestion failed: " ++ message (thrown_error err)) ;;
   match thrown_cause err with
   | Some cause => console_error_line ("Cause: " ++ cause)
   | None => ST.ret tt
   end ;;
   process_exit 1)%st.

Definition ingestData : ST.t Store unit :=
  SC.try_catch ingestData_try ingestData_catch.

(** The table before the script runs. *)
Definition store_with (old : list Row) : Store :=
  mkStore old [] [] [] None.

End Ingest.

(** *** loadTravelData (utils.ts) and startServer (server.ts) *)

Section Server.

Context {number : Type}.

(** What [JSON.parse] returns, as [loadTravelData] reads it: [null], on
    which reading [cities] throws, or a value with its [cities] property
    ([None] when the property is missing or falsy). *)
Inductive ParsedDb : Type :=
| parsed_null
| parsed_value (db_cities : option (list (@City number))).

(** The file system, the JSON parser, and the text [console.error] prints
    for an error object. *)
Record FileSystem : Type := mkFileSystem {
  path_resolve : string -> string;
  readFileSync : string -> Completion string;
  JSON_parse : string -> Completion ParsedDb;
  inspect : Error -> string
}.

Definition read_cities (fs : FileSystem) (dbPath : string)
  : Completion (list (@City number)) :=
  match readFileSync fs (path_resolve fs dbPath) with
  | Throw e => Throw e
  | Normal text =>
      match JSON_parse fs text with
      | Throw e => Throw e
      | Normal parsed_null =>
          Throw (mkError
                   "Cannot read properties of null (reading 'cities')")
      | Normal (parsed_value (Some cs)) => Normal cs
      | Normal (parsed_value None) => Normal []
      end
  end.

(** [loadTravelData], over the lines of [console.error]: the [try] block
    reads the cities, the [catch] block logs the error and returns the
    empty list. *)
Definition loadTravelData (fs : FileSystem) (dbPath : string)
  : ST.t (list string) (list (@City number)) :=
  fun console =>
    match read_cities fs dbPath with
    | Normal cs => (Normal cs, console)
    | Throw error =>
        (Normal [],
         (console
          ++ [("Failed to load or parse travelData.json: "
               ++ inspect fs error)%string])%list)
    end.

(** The environment variables the server reads. *)
Record ProcessEnv : Type := mkProcessEnv {
  PORT : option string;
  GOOGLE_API_KEY : option string;
  SUPABASE_URL : option string;
  SUPABASE_ANON_KEY : option string
}.

(** The port given to [app.listen]: the text of the environment variable,
    or a number. *)
Inductive Port : Type :=
| port_of_env (s : string)
| port_number (n : N).

(** The constructors of the services, and Express: [express_app] stands
    for the calls [createApp] makes to build the application ([express()],
    the middlewares, the routes), [listen] for [app.listen(PORT, ...)],
    which throws when the port is out of range. *)
Record ServiceFactory : Type := mkServiceFactory {
  getGenerativeModel : string -> Completion GenerativeModel;
  createClient : string -> string -> Completion (@SupabaseClient number);
  newEmbeddings : string -> Completion (@Embeddings number);
  newVectorStore : Completion unit;
  express_app : Completion unit;
  listen : Port -> Completion unit
}.

(** What the process has done: the lines of [console.error], the code of
    [process.exit], and the port and the dependencies of the application
    it listens with. *)
Record Process : Type := mkProcess {
  proc_stderr : list string;
  proc_exit : option nat;
  listening : option (Port * @AppDependencies number)
}.

Variable fs : FileSystem.
Variable factory : ServiceFactory.
Variable env : ProcessEnv.

Definition require_env (name : string) (value : option string)
  : ST.t Process string :=
  match value with
  | None => ST.throw (mkError ("Missing: " ++ name))
  | Some v =>
      if String.eqb v EmptyString then ST.throw (mkError ("Missing: " ++ name))
      else ST.ret v
  end.

(** [process.env.PORT || 8080]. *)
Definition server_port : Port :=
  match PORT env with
  | None => port_number 8080%N
  | Some p =>
      if String.eqb p EmptyString then port_number 8080%N
      else port_of_env p
  end.

Definition startServer_try : ST.t Process unit :=
  (let port := server_port in
   google_key <- require_env "GOOGLE_API_KEY" (GOOGLE_API_KEY env) ;;
   url <- require_env "SUPABASE_URL" (SUPABASE_URL env) ;;
   anon_key <- require_env "SUPABASE_ANON_KEY" (SUPABASE_ANON_KEY env) ;;
   cities <- ST.zoom proc_stderr
               (fun lines p => mkProcess lines (proc_exit p) (listening p))
               (loadTravelData fs (path_resolve fs "./travelData.json")) ;;
   chatModel <- ST.call (fun p => p) (getGenerativeModel factory google_key) ;;
   supabaseClient <- ST.call (fun p => p) (createClient factory url anon_key) ;;
   geminiEmbedder <- ST.call (fun p => p) (newEmbeddings factory google_key) ;;
   ST.call (fun p => p) (newVectorStore factory) ;;
   ST.call (fun p => p) (express_app factory) ;;
   ST.call (fun p => p) (listen factory port) ;;
   ST.modify (fun p =>
     mkProcess (proc_stderr p) (proc_exit p)
       (Some (port,
              mkAppDependencies chatModel geminiEmbedder supabaseClient
                                cities "match_documents"))))%st.

(** The [catch] block; the line of the stack trace is left out. *)
Definition startServer : ST.t Process unit :=
  ST.try_catch startServer_try
    (fun err =>
       ST.modify (fun p =>
         mkProcess
           (proc_stderr p
            ++ ["🔥 FAILED TO INITIALIZE SERVER 🔥";
                ("Error: " ++ message err)%string])%list
           (Some 1) (listening p))).

Definition boot : Process := mkProcess [] None None.

End Server.

(** A batch sent to the table: between one row and [BATCH_SIZE] rows. *)
Definition batch_ok {number : Type} (b : list (@Row number)) : Prop :=
  1 <= List.length b /\ List.length b <= BATCH_SIZE.

(** A row the script may insert: its text, trimmed, is longer than
    [MIN_CHUNK_LENGTH], and its embedding is not empty. *)
Definition row_ok {number : Type} (r : @Row number) : Prop :=
  MIN_CHUNK_LENGTH < String.length (trim (row_content r))
  /\ row_embedding r <> [].

(** The token the middleware reads in the header: the second of the
    pieces separated by a space, when the header is there and that piece
    is not empty. *)
Definition token_of (authHeader : option string) : option string :=
  match authHeader with
  | None => None
  | Some h =>
      if String.eqb h EmptyString then None
      else
        match nth_error (split_space h) 1 with
        | Some t => if String.eqb t EmptyString then None else Some t
        | None => None
        end
  end.

(** The response of [res.status(code).json(obj)] on a response not yet
    sent. *)
Definition json_response (hs : Headers) (code : nat)
    (obj : list (string * JSON.value)) : Response :=
  let hs' := if has_header "Content-Type" hs then hs
             else set_header "Content-Type" "application/json" hs in
  mkResponse code hs' (Some (code, hs')) [JSON.stringify obj] true.

(** ** Sample data

    Costs that are natural numbers, printed in decimal as JavaScript
    prints them. *)

Module Sample.

Local Open Scope N_scope.

Definition show (n : N) : string := NilZero.string_of_uint (N.to_uint n).

Definition jaipur : @City N :=
  mkCity "Jaipur" "Rajasthan" 2500 800 7
         [mkTopSpot "Hawa Mahal" "monument" 5;
          mkTopSpot "Amber Fort" "fort" 5]
         [mkReview "asha" "Pink city!" 5].

Definition delhi : @City N :=
  mkCity "Delhi" "Delhi" 3000 900 8
         [mkTopSpot "Red Fort" "fort" 4] [].

(** A record whose state is left empty. *)
Definition chandigarh : @City N :=
  mkCity "Chandigarh" EmptyString 2800 700 8 [] [].

Definition dataset : list City := [delhi; jaipur].

Definition row (src txt : string) : Doc := mkDoc (Some (mkMetadata src)) txt.

Definition rows : list Doc :=
  [row "jaipur.txt" "Hawa Mahal is best at sunrise.";
   row "tips.txt" "Carry water in summer."].

(** A chat session that streams [chunks] and then stops with [failure]. *)
Definition session (chunks : list string) (failure : option Error)
  : ChatSession :=
  mkChatSession
    (fun _ => Normal (mkStreamResult
                        (map (fun t => mkChunk (Normal t)) chunks) failure))
    (fun _ => Normal (mkGenerateContentResult
                        (Normal (String.concat EmptyString chunks)))).

Definition deps (embedding : Completion (list N))
    (search : Completion RpcResult) (chat : Completion ChatSession)
  : AppDependencies :=
  mkAppDependencies
    (mkGenerativeModel (fun _ => chat))
    (mkEmbeddings (fun _ => embedding))
    (mkSupabaseClient (fun _ _ _ => search))
    dataset
    "match_documents".

Definition vector : list N := [1; 0; 2].

(** All collaborators answer; the model streams two chunks. *)
Definition deps_ok (found : option (list Doc)) : AppDependencies :=
  deps (Normal vector) (Normal (mkRpcResult found None))
       (Normal (session ["Chalo "; "Jaipur!"] None)).

(** The embedder fails. *)
Definition deps_embed_fails : AppDependencies :=
  deps (Throw (mkError "quota exceeded")) (Normal (mkRpcResult None None))
       (Normal (session [] None)).

(** The stream of the model breaks after one chunk. *)
Definition deps_stream_breaks : AppDependencies :=
  deps (Normal vector) (Normal (mkRpcResult (Some rows) None))
       (Normal (session ["Chalo "] (Some (mkError "stream reset")))).

End Sample.

(** The first of the three keys that the environment lacks, in the order
    the server checks them. *)
Definition first_missing (env : ProcessEnv) : option string :=
  if missing (GOOGLE_API_KEY env) then Some "GOOGLE_API_KEY"
  else if missing (SUPABASE_URL env) then Some "SUPABASE_URL"
  else if missing (SUPABASE_ANON_KEY env) then Some "SUPABASE_ANON_KEY"
  else None.

(** ** More sample data *)

Module SampleMore.

Import Sample.

Local Open Scope N_scope.

(** A search that resolves to an error. *)
Definition deps_search_error : AppDependencies :=
  deps (Normal vector)
       (Normal (mkRpcResult None (Some (mkPostgrestError "timeout"))))
       (Normal (session [] None)).

(** A search result with a row that has no [metadata]. *)
Definition broken_rows : list Doc :=
  [row "jaipur.txt" "Hawa Mahal is best at sunrise."; mkDoc None "orphan"].

(** A session whose second chunk cannot be read. *)
Definition session_blocked : ChatSession :=
  mkChatSession
    (fun _ => Normal (mkStreamResult
                        [mkChunk (Normal "Chalo ");
                         mkChunk (Throw (mkError "blocked"));
                         mkChunk (Normal "never sent")]
                        None))
    (fun _ => Throw (mkError "blocked")).

Definition deps_blocked : AppDependencies :=
  deps (Normal vector) (Normal (mkRpcResult (Some rows) None))
       (Normal session_blocked).

Definition asha : User := mkUser "u-1" (Some "asha@example.org").

(** An identity provider that knows one token. *)
Definition provider (token : string) : Completion UserResponse :=
  if String.eqb token "secret" then Normal (mkUserResponse (Some asha) None)
  else Normal (mkUserResponse None (Some (mkAuthError "invalid JWT"))).

Definition provider_down (token : string) : Completion UserResponse :=
  Throw (mkError "fetch failed").

Definition chat_post (header : option string) : HttpRequest :=
  mkHttpRequest header (mkRequest (JsString "3 days in Jaipur")).

(** The knowledge base: two text files and one file that is not one. *)
Definition contents (file : string) : string :=
  "Notes of ./knowledge_base/" ++ file ++ ": start early, carry water.".

Definition ingest_deps
    (delete_result : Completion (option PostgrestError))
    (split : list Document -> Completion (list Document))
    (embed : list string -> Completion (list (list N)))
    (insert : list (@Row N) -> Completion (option PostgrestError))
  : IngestDependencies :=
  mkIngestDependencies
    delete_result insert
    (fun _ => Normal ["jaipur.txt"; "README.md"; "tips.txt"])
    (fun path => Normal ("Notes of " ++ path
                         ++ ": start early, carry water."))
    (fun dir file => dir ++ "/" ++ file)
    split embed
    (fun e => if String.eqb (message e) "fetch failed"
              then Some "connect ECONNREFUSED 127.0.0.1:54321"
              else None).

Definition embed_each (texts : list string) : Completion (list (list N)) :=
  Normal (map (fun _ => [1; 2]) texts).

Definition ingest_ok : IngestDependencies :=
  ingest_deps (Normal None) (fun docs => Normal docs) embed_each
              (fun _ => Normal None).

(** The splitter returns one chunk that is too short. *)
Definition ingest_short : IngestDependencies :=
  ingest_deps (Normal None)
              (fun _ => Normal [mkDocument " too short  "
                                           (mkMetadata "jaipur.txt")])
              embed_each (fun _ => Normal None).

(** The embedder returns one embedding for two chunks. *)
Definition ingest_mismatch : IngestDependencies :=
  ingest_deps (Normal None) (fun docs => Normal docs)
              (fun _ => Normal [[1; 2]]) (fun _ => Normal None).

Definition ingest_delete_fails : IngestDependencies :=
  ingest_deps (Normal (Some (mkPostgrestError "permission denied")))
              (fun docs => Normal docs) embed_each (fun _ => Normal None).

(** The delete cannot reach the database. *)
Definition ingest_delete_throws : IngestDependencies :=
  ingest_deps (Throw (mkError "fetch failed"))
              (fun docs => Normal docs) embed_each (fun _ => Normal None).

Definition old_rows : list (@Row N) :=
  [mkRow "An old row of the table, long enough." (mkMetadata "old.txt") [9]].

(** A file system without the dataset, and services that start. *)
Definition fs_without_dataset : @FileSystem N :=
  mkFileSystem (fun path => path)
               (fun _ => Throw (mkError "ENOENT: no such file or directory"))
               (fun _ => Normal parsed_null)
               (fun e => "Error: " ++ message e).

(** Express refuses a port out of range. *)
Definition bad_port : Error :=
  mkError "options.port should be >= 0 and < 65536. Received type string ('99999').".

Definition listen_on (port : Port) : Completion unit :=
  match port with
  | port_number n => if N.ltb n 65536 then Normal tt else Throw bad_port
  | port_of_env p =>
      if String.eqb p "99999" then Throw bad_port else Normal tt
  end.

Definition factory_ok : @ServiceFactory N :=
  mkServiceFactory
    (fun _ => Normal (mkGenerativeModel
                        (fun _ => Normal (session ["Namaste"] None))))
    (fun _ _ => Normal (mkSupabaseClient
                          (fun _ _ _ => Normal (mkRpcResult None None))))
    (fun _ => Normal (mkEmbeddings (fun _ => Normal vector)))
    (Normal tt) (Normal tt) listen_on.


Definition env_bad_port : ProcessEnv :=
  mkProcessEnv (Some "99999") (Some "g-key") (Some "https://db.example.org")
               (Some "anon-key").

Definition env_without_url : ProcessEnv :=
  mkProcessEnv (Some "3000") (Some "g-key") None None.

End SampleMore.

(** * Facts *)

(** Running the monad of the handler on an explicit state. *)
Ltac run :=
  repeat progress
    (unfold bind, ret, lift, throw, await, try_catch, modify_res, get_res,
       console_error_, setHeader, flushHeaders, write, end_, status, json,
       send_head, headersSent;
     simpl).


(** ** Strings *)

Lemma append_nil_r (s : string) : s ++ EmptyString = s.
Proof. induction s as [|c s IH]; simpl; [reflexivity | now rewrite IH]. Qed.

Lemma append_assoc (a b c : string) : (a ++ b) ++ c = a ++ (b ++ c).
Proof. induction a as [|x a IH]; simpl; [reflexivity | now rewrite IH]. Qed.

Lemma append_eq_nil (a b : string) :
  a ++ b = EmptyString -> a = EmptyString /\ b = EmptyString.
Proof. destruct a; simpl; [auto | discriminate]. Qed.

Lemma startsWith_iff (s p : string) :
  startsWith s p = true <-> exists r, s = p ++ r.
Proof.
  revert s; induction p as [|a p IH]; intros s; simpl.
  - split; [intros _; now exists s | reflexivity].
  - destruct s as [|b s].
    + split; [discriminate | intros [r Hr]; discriminate].
    + rewrite andb_true_iff, Ascii.eqb_eq, IH. split.
      * intros [-> [r ->]]. now exists r.
      * intros [r Hr]. injection Hr as -> ->. split; [reflexivity | now exists r].
Qed.

Lemma includes_iff (s sub : string) :
  includes s sub = true <-> occurs_in sub s.
Proof.
  induction s as [|c s IH]; simpl; rewrite orb_true_iff, startsWith_iff.
  - split.
    + intros [[r Hr] | H]; [| discriminate]. now exists EmptyString, r.
    + intros [a [b H]]. left. symmetry in H.
      apply append_eq_nil in H as [-> H]. simpl in H.
      apply append_eq_nil in H as [-> ->]. now exists EmptyString.
  - rewrite IH. split.
    + intros [[r Hr] | [a [b H]]].
      * now exists EmptyString, r.
      * exists (String c a), b. simpl. now rewrite H.
    + intros [[|x a] [b H]]; simpl in H.
      * left. now exists b.
      * right. injection H as _ H. now exists a, b.
Qed.

Lemma occurs_in_refl (s : string) : occurs_in s s.
Proof. exists EmptyString, EmptyString. simpl. now rewrite append_nil_r. Qed.

Lemma occurs_in_nil (s : string) : occurs_in EmptyString s.
Proof. now exists EmptyString, s. Qed.

Lemma occurs_in_trans (a b c : string) :
  occurs_in a b -> occurs_in b c -> occurs_in a c.
Proof.
  intros [x [y ->]] [u [v ->]]. exists (u ++ x), (y ++ v).
  now rewrite !append_assoc.
Qed.

Lemma occurs_in_app_r (t a b : string) : occurs_in t b -> occurs_in t (a ++ b).
Proof.
  intros [x [y ->]]. exists (a ++ x), y. now rewrite !append_assoc.
Qed.

Lemma occurs_in_app_l (t a b : string) : occurs_in t a -> occurs_in t (a ++ b).
Proof.
  intros [x [y ->]]. exists x, (y ++ b). now rewrite !append_assoc.
Qed.

Lemma includes_nil (s : string) : includes s EmptyString = true.
Proof. apply includes_iff, occurs_in_nil. Qed.

Lemma includes_in_nil (sub : string) :
  includes EmptyString sub = true <-> sub = EmptyString.
Proof.
  destruct sub; simpl; split; auto; discriminate.
Qed.

Lemma toLowerCase_nil_iff (s : string) :
  toLowerCase s = EmptyString <-> s = EmptyString.
Proof. destruct s; simpl; split; auto; discriminate. Qed.

(** The pieces of [split] occur in the text split. *)
Lemma split_W_from_occurs (s : string) :
  forall in_sep cur t,
    In t (split_W_from in_sep cur s) -> occurs_in t (cur ++ s).
Proof.
  induction s as [|c r IH]; intros in_sep cur t; simpl.
  - intros [<- | []]. rewrite append_nil_r. apply occurs_in_refl.
  - assert (Hstep : forall u, occurs_in u r -> occurs_in u (cur ++ String c r)).
    { intros u Hu. apply occurs_in_app_r.
      change (String c r) with (String c EmptyString ++ r).
      now apply occurs_in_app_r. }
    destruct (is_word_char c).
    + intros H. apply IH in H. rewrite append_assoc in H. exact H.
    + destruct in_sep.
      * intros H. apply IH in H. simpl in H. auto.
      * intros [<- | H].
        -- apply occurs_in_app_l, occurs_in_refl.
        -- apply IH in H. simpl in H. auto.
Qed.

Lemma split_W_occurs (s t : string) : In t (split_W s) -> occurs_in t s.
Proof. intros H. now apply split_W_from_occurs in H. Qed.

Lemma tokens_from_occurs (s : string) :
  forall cur t, In t (tokens_from cur s) -> occurs_in t (cur ++ s).
Proof.
  induction s as [|c r IH]; intros cur t; simpl.
  - destruct cur; [intros [] |].
    intros [<- | []]. rewrite append_nil_r. apply occurs_in_refl.
  - assert (Hstep : forall u, occurs_in u r -> occurs_in u (cur ++ String c r)).
    { intros u Hu. apply occurs_in_app_r.
      change (String c r) with (String c EmptyString ++ r).
      now apply occurs_in_app_r. }
    destruct (is_delimiter c).
    + destruct cur as [|x cur'].
      * intros H. apply IH in H. auto.
      * intros [<- | H].
        -- apply occurs_in_app_l, occurs_in_refl.
        -- apply IH in H. auto.
    + intros H. apply IH in H. rewrite append_assoc in H. exact H.
Qed.

Lemma tokens_occurs (s t : string) : In t (tokens s) -> occurs_in t s.
Proof. intros H. now apply tokens_from_occurs in H. Qed.

(** [join] on the empty list, on one element and on more. *)
Lemma join_cons (sep x y : string) (rest : list string) :
  join sep (x :: y :: rest) = x ++ sep ++ join sep (y :: rest).
Proof. reflexivity. Qed.

(** ** searchCity *)

Section SearchCityFacts.

Context {number : Type}.
Implicit Types (c : @City number) (cs : list (@City number)).

Lemma filter_nil_incl {A : Type} (f g : A -> bool) (l : list A) :
  (forall x, In x l -> g x = true -> f x = true) ->
  filter f l = [] -> filter g l = [].
Proof.
  induction l as [|x l IH]; simpl; intros Hfg Hf; [reflexivity |].
  destruct (f x) eqn:Efx; [discriminate |].
  destruct (g x) eqn:Egx.
  - rewrite (Hfg x (or_introl eq_refl) Egx) in Efx. discriminate.
  - apply IH; auto.
Qed.

Lemma direct_match_city (q : string) c :
  includes q (toLowerCase (city c)) = true -> direct_match q c = true.
Proof. unfold direct_match. now intros ->. Qed.

(** A record whose city name is one of the words of [q] is a direct match
    already: a word of [q] occurs in [q]. *)
Lemma word_match_direct_match (q : string) c :
  word_match (split_W q) c = true -> direct_match q c = true.
Proof.
  unfold word_match. rewrite existsb_exists. intros [w [Hin Heq]].
  apply String.eqb_eq in Heq. apply direct_match_city, includes_iff.
  rewrite Heq. now apply split_W_occurs.
Qed.

Lemma token_match_direct_match (q : string) c :
  existsb (fun token => String.eqb (toLowerCase (city c)) token) (tokens q)
  = true ->
  direct_match q c = true.
Proof.
  rewrite existsb_exists. intros [w [Hin Heq]].
  apply String.eqb_eq in Heq. apply direct_match_city, includes_iff.
  rewrite Heq. now apply tokens_occurs.
Qed.

(** The word-by-word pass never adds a record: [searchCity] is the filter
    of the direct matches. *)
Lemma searchCity_direct (query : string) cs :
  searchCity query cs = filter (direct_match (toLowerCase query)) cs.
Proof.
  unfold searchCity.
  destruct (filter (direct_match (toLowerCase query)) cs) as [|h hits] eqn:E;
    simpl; [| reflexivity].
  apply filter_nil_incl with (f := direct_match (toLowerCase query)); auto.
  intros x _. apply word_match_direct_match.
Qed.

Lemma StructuredMatcher_direct (query : string) cs :
  StructuredMatcher query cs = filter (direct_match (toLowerCase query)) cs.
Proof.
  unfold StructuredMatcher, direct_match.
  destruct (filter _ cs) as [|h hits] eqn:E; [| reflexivity].
  apply filter_nil_incl with (f := direct_match (toLowerCase query)); auto.
  intros x _. apply token_match_direct_match.
Qed.

Lemma direct_match_empty_query c :
  direct_match EmptyString c
  = String.eqb (city c) EmptyString || String.eqb (state c) EmptyString.
Proof.
  unfold direct_match.
  assert (H : forall s, includes EmptyString (toLowerCase s)
                        = String.eqb s EmptyString).
  { intros s. destruct s; reflexivity. }
  now rewrite !H.
Qed.

Lemma searchCity_on_empty_query cs :
  searchCity EmptyString cs
  = filter (fun c => String.eqb (city c) EmptyString
                     || String.eqb (state c) EmptyString) cs.
Proof.
  rewrite searchCity_direct. simpl. apply filter_ext.
  intros c. apply direct_match_empty_query.
Qed.

(** With no empty name in the dataset, the empty query matches nothing. *)
Lemma searchCity_empty_query cs :
  (forall c, In c cs -> city c <> EmptyString /\ state c <> EmptyString) ->
  searchCity EmptyString cs = [].
Proof.
  intros Hne. rewrite searchCity_on_empty_query.
  induction cs as [|c cs IH]; simpl; [reflexivity |].
  destruct (Hne c (or_introl eq_refl)) as [Hc Hs].
  apply String.eqb_neq in Hc, Hs. rewrite Hc, Hs. simpl.
  apply IH. intros x Hx. apply Hne. now right.
Qed.

(** C5, as amended.  When the lowercased query contains the lowercased
    name of a city of the dataset, the result of [searchCity] holds that
    record, after the direct matches that precede it in the dataset and
    before those that follow it; the record is the first element when no
    record before it is a direct match.  The comparison is the one the code
    makes, on the two lowercased strings: the proof uses nothing of how
    [toLowerCase] acts on them. *)
Theorem searchCity_exact_name (query : string) (pre : list City) c
    (post : list City) :
  includes (toLowerCase query) (toLowerCase (city c)) = true ->
  searchCity query (pre ++ c :: post)%list
  = (filter (direct_match (toLowerCase query)) pre
     ++ c :: filter (direct_match (toLowerCase query)) post)%list
  /\ (filter (direct_match (toLowerCase query)) pre = [] ->
      hd_error (searchCity query (pre ++ c :: post)%list) = Some c).
Proof.
  intros Hinc.
  assert (Hc : direct_match (toLowerCase query) c = true).
  { now apply direct_match_city. }
  assert (E : searchCity query (pre ++ c :: post)%list
              = (filter (direct_match (toLowerCase query)) pre
                 ++ c :: filter (direct_match (toLowerCase query)) post)%list).
  { rewrite searchCity_direct, filter_app. simpl. now rewrite Hc. }
  split; [exact E |].
  intros Hpre. rewrite E, Hpre. reflexivity.
Qed.

(** C6, as amended.  [searchCity] computes the two-tier match of the
    specification: the records whose city or state name occurs in the
    lowercased query, in dataset order, when there are any, and otherwise
    the records whose city name is a token of the query (there are none
    then).  On the empty query it returns the records whose city or state
    name is empty. *)
Theorem searchCity_two_tier (query : string) cs :
  searchCity query cs = StructuredMatcher query cs
  /\ searchCity EmptyString cs
     = filter (fun c => String.eqb (city c) EmptyString
                        || String.eqb (state c) EmptyString) cs.
Proof.
  split.
  - now rewrite searchCity_direct, StructuredMatcher_direct.
  - apply searchCity_on_empty_query.
Qed.

End SearchCityFacts.

(** ** Events on the wire *)

Lemma strip_prefix_app (p s : string) : strip_prefix p (p ++ s) = Some s.
Proof.
  induction p as [|a p IH]; simpl; [reflexivity |].
  now rewrite Ascii.eqb_refl.
Qed.

(** Reading back one escaped character. *)
Lemma read_string_escape_char (c : ascii) (r : string) :
  read_string (JSON.escape_char c ++ r) = read_more c (read_string r).
Proof.
  destruct c as [[] [] [] [] [] [] [] []]; reflexivity.
Qed.

(** Reading back an escaped text up to its closing quote. *)
Lemma read_string_escape (t rest : string) :
  read_string (JSON.escape t ++ dq ++ rest) = Some (t, rest).
Proof.
  induction t as [|c t IH]; [reflexivity |].
  change (JSON.escape (String c t))
    with (JSON.escape_char c ++ JSON.escape t).
  now rewrite append_assoc, read_string_escape_char, IH.
Qed.

Lemma read_value_escape (t : string) :
  read_value (JSON.escape t ++ dq ++ "}" ++ nl ++ nl) = Some t.
Proof.
  unfold read_value. rewrite read_string_escape.
  now rewrite String.eqb_refl.
Qed.

(** The reader gets every event back from its text on the wire. *)
Lemma parse_event_wire (e : StreamEvent) : parse_event (wire e) = Some e.
Proof.
  destruct e as [t | | m]; [| reflexivity |];
    unfold wire, sse, JSON.stringify, parse_event; simpl;
    rewrite !append_assoc.
  - exact (f_equal (option_map textDelta) (read_value_escape t)).
  - exact (f_equal (option_map error_event) (read_value_escape m)).
Qed.

Lemma parse_events_wire (events : list StreamEvent) :
  parse_events (map wire events) = Some events.
Proof.
  induction events as [|e events IH]; simpl; [reflexivity |].
  now rewrite parse_event_wire, IH.
Qed.

(** Two runs of events with the same text are the same run. *)
Lemma map_wire_inj (events events' : list StreamEvent) :
  map wire events = map wire events' -> events = events'.
Proof.
  intros H. apply (f_equal parse_events) in H.
  rewrite !parse_events_wire in H. now injection H.
Qed.

(** ** The handler *)

Section HandlerFacts.

Context {number : Type}.
Variable Number_toString : number -> string.
Variable dependencies : @AppDependencies number.

(** The first half of the handler leaves the response alone. *)
Lemma open_chat_res (req : Request) (w : World) :
  res (snd (open_chat Number_toString dependencies req w)) = res w.
Proof.
  unfold open_chat. run.
  destruct (call_trim _) as [q|e]; simpl; [| reflexivity].
  destruct (embedQuery _ _) as [v|e]; simpl; [| reflexivity].
  destruct (rpc _ _ _ _) as [r|e]; simpl; [| reflexivity].
  destruct (error r) as [rpcError|]; simpl; [reflexivity |].
  destruct (ragContext _) as [rag|e]; simpl; [| reflexivity].
  destruct (startChat _ _) as [chat|e]; reflexivity.
Qed.

(** The loop forwards the texts delivered by the stream, in order, and
    throws what stopped it. *)
Lemma for_await_delivered (chunks : list Chunk) (failure : option Error) :
  forall sc hs h bd cl ce,
    for_await chunks failure write_text
      (mkWorld (mkResponse sc hs (Some h) bd false) cl ce)
    = (match snd (delivered chunks failure) with
       | Some e => Throw e
       | None => Normal tt
       end,
       @mkWorld number
         (mkResponse sc hs (Some h)
            (bd ++ map wire (map textDelta (fst (delivered chunks failure))))
            false)
         cl ce).
Proof.
  induction chunks as [|chunk rest IH]; intros sc hs h bd cl ce; simpl.
  - rewrite app_nil_r. destruct failure; reflexivity.
  - unfold bind at 1. unfold write_text at 1. run.
    destruct (chunk_text chunk) as [t|e]; simpl.
    + rewrite IH. rewrite <- app_assoc. reflexivity.
    + rewrite app_nil_r. reflexivity.
Qed.

(** Part D, from a response not yet sent. *)
Lemma stream_reply_run (q : string) (chat : ChatSession) hs cl ce :
  stream_reply q chat (mkWorld (mkResponse 200 hs None [] false) cl ce)
  = match sendMessageStream chat q with
    | Throw e =>
        (Throw e,
         @mkWorld number (event_response hs [] false)
                  (cl ++ [call_sendMessageStream q]) ce)
    | Normal result =>
        let d := delivered (stream result) (stream_failure result) in
        match snd d with
        | Some e =>
            (Throw e,
             mkWorld (event_response hs (map textDelta (fst d)) false)
                     (cl ++ [call_sendMessageStream q]) ce)
        | None =>
            (Normal tt,
             mkWorld (event_response hs (map textDelta (fst d) ++ [done]) true)
                     (cl ++ [call_sendMessageStream q]) ce)
        end
    end.
Proof.
  unfold stream_reply. run.
  destruct (sendMessageStream chat q) as [result|e]; simpl; [| reflexivity].
  rewrite for_await_delivered. simpl.
  destruct (snd (delivered _ _)); simpl; [reflexivity |].
  unfold event_response. rewrite map_app. reflexivity.
Qed.

(** The [catch] block, before anything is sent. *)
Lemma catch_before_send (e : Error) hs cl ce :
  chat_stream_catch e (mkWorld (mkResponse 200 hs None [] false) cl ce)
  = (Normal tt,
     @mkWorld number (error_response hs) cl
              (ce ++ [("ERROR in /api/chat:", message e)])).
Proof.
  unfold chat_stream_catch, error_response. run.
  destruct (has_header _ hs); reflexivity.
Qed.

(** The [catch] block, once the head is sent. *)
Lemma catch_mid_send (e : Error) sc hs h bd cl ce :
  chat_stream_catch e (mkWorld (mkResponse sc hs (Some h) bd false) cl ce)
  = (Normal tt,
     @mkWorld number
       (mkResponse sc hs (Some h) (bd ++ [wire (error_event (message e))])
                   true)
       cl (ce ++ [("ERROR in /api/chat:", message e)])).
Proof. reflexivity. Qed.


Lemma terminal_last_texts (texts : list string) (last : StreamEvent) :
  terminal_last (map textDelta texts ++ [last]) = true.
Proof.
  induction texts as [|t texts IH]; simpl; [| exact IH].
  destruct (is_terminal last); reflexivity.
Qed.

(** How the [try] block of the streaming form ends, from a fresh response:
    it throws with nothing sent, or it throws with the head of the event
    stream and some text events sent, or it returns with the text events
    and [done] sent and the channel closed. *)
Lemma chat_stream_try_cases (req : Request) hs c w1 :
  chat_stream_try Number_toString dependencies req (fresh hs) = (c, w1) ->
  (exists e, c = Throw e /\ res w1 = mkResponse 200 hs None [] false)
  \/ (exists e texts,
        c = Throw e /\ res w1 = event_response hs (map textDelta texts) false)
  \/ (exists texts,
        c = Normal tt
        /\ res w1 = event_response hs (map textDelta texts ++ [done]) true).
Proof.
  unfold chat_stream_try, bind.
  pose proof (open_chat_res req (fresh hs)) as Hres.
  destruct (open_chat Number_toString dependencies req (fresh hs))
    as [[[q chat]|e] [r cl ce]]; simpl in Hres; subst r.
  - simpl fst; simpl snd. rewrite stream_reply_run.
    destruct (sendMessageStream chat q) as [result|e].
    + cbv zeta.
      destruct (snd (delivered (stream result) (stream_failure result)))
        as [e|]; intros [= <- <-]; simpl.
      * right; left. now exists e, (fst (delivered (stream result)
                                          (stream_failure result))).
      * right; right. now exists (fst (delivered (stream result)
                                         (stream_failure result))).
    + intros [= <- <-]. right; left. now exists e, [].
  - intros [= <- <-]. left. now exists e.
Qed.



Lemma payload_not_events : parse_events [error_payload] = None.
Proof. reflexivity. Qed.

(** C3.  For every request, the streaming handler returns with the
    response ended, and what it has written is either the one JSON payload
    of the failure before sending (no event at all) or a run of text
    events closed by exactly one terminal event, [done] or [error]; read
    as events, the body never has an event after a terminal one. *)
Theorem no_event_after_terminal (req : Request) hs :
  exists w,
    chat_stream Number_toString dependencies req (fresh hs) = (Normal tt, w)
    /\ writableEnded (res w) = true
    /\ (res w = error_response hs
        \/ exists texts last,
             is_terminal last = true
             /\ body (res w) = map wire (map textDelta texts ++ [last])
             /\ parse_events (body (res w))
                = Some (map textDelta texts ++ [last])%list)
    /\ (forall events,
          body (res w) = map wire events -> terminal_last events = true).
Proof.
  destruct (chat_stream_try Number_toString dependencies req (fresh hs))
    as [c [r cl ce]] eqn:Htry.
  unfold chat_stream, try_catch. rewrite Htry.
  destruct (chat_stream_try_cases req hs _ _ Htry)
    as [[e [-> Hres]] | [[e [texts [-> Hres]]] | [texts [-> Hres]]]];
    simpl in Hres; subst r.
  - rewrite catch_before_send. eexists. split; [reflexivity |]. simpl.
    split; [reflexivity |]. split; [now left |].
    intros [|ev events]; [discriminate |]. intros [= H _].
  - unfold event_response. rewrite catch_mid_send.
    eexists. split; [reflexivity |]. simpl. split; [reflexivity |].
    rewrite <- (map_app wire _ [error_event (message e)]).
    split.
    + right. exists texts, (error_event (message e)).
      split; [reflexivity |]. split; [reflexivity |].
      apply parse_events_wire.
    + intros events H. apply map_wire_inj in H. subst events.
      apply terminal_last_texts.
  - eexists. split; [reflexivity |]. simpl. split; [reflexivity |].
    split.
    + right. exists texts, done.
      split; [reflexivity |]. split; [reflexivity |].
      apply parse_events_wire.
    + intros events H. apply map_wire_inj in H. subst events.
      apply terminal_last_texts.
Qed.

End HandlerFacts.

(** ** The context and the prompt *)

Section ContextFacts.

Context {number : Type}.
Variable Number_toString : number -> string.

Lemma structuredContext_line (cityHits : list (@City number)) :
  structuredContext Number_toString cityHits
  = structured_line Number_toString (hd_error cityHits).
Proof. destruct cityHits; reflexivity. Qed.

Lemma map_throwing_rows (snippets : list (@RetrievedSnippet number)) :
  map_throwing render_doc (map row_of_snippet snippets)
  = Normal (map snippet_line snippets).
Proof.
  induction snippets as [|s rest IH]; simpl; [reflexivity |].
  now rewrite IH.
Qed.

Lemma ragContext_rows (snippets : list (@RetrievedSnippet number)) :
  ragContext (Some (map row_of_snippet snippets))
  = Normal (join snippet_delimiter (map snippet_line snippets)).
Proof. unfold ragContext. now rewrite map_throwing_rows. Qed.

Lemma finalContext_fuse (cityHits : list (@City number))
    (snippets : list RetrievedSnippet) :
  finalContext (structuredContext Number_toString cityHits)
               (join snippet_delimiter (map snippet_line snippets))
  = fuse Number_toString (hd_error cityHits) snippets.
Proof. unfold finalContext, fuse. now rewrite structuredContext_line. Qed.

Lemma ragContext_zero_rows (found : option (list Doc)) :
  found = None \/ found = Some [] -> ragContext found = Normal EmptyString.
Proof. intros [-> | ->]; reflexivity. Qed.

(** C7.  The context built by the handler from the city hits and the rows
    of the snippets is the two-section text of the specification: the line
    of structured data for the first hit (name, state, hotel cost, food
    cost, names of the top spots joined by a comma and a space) or the
    sentence that no city was found, then the retrieved-context section
    with one [[From label]: text] item per snippet, joined by the
    delimiter; the joined text is empty for zero snippets. *)
Theorem fused_context_format (cityHits : list (@City number))
    (snippets : list RetrievedSnippet) :
  ragContext (Some (map row_of_snippet snippets))
  = Normal (join snippet_delimiter (map snippet_line snippets))
  /\ finalContext (structuredContext Number_toString cityHits)
                  (join snippet_delimiter (map snippet_line snippets))
     = fuse Number_toString (hd_error cityHits) snippets
  /\ fuse Number_toString (hd_error cityHits) snippets
     = nl ++ "        Structured Data: "
       ++ match cityHits with
          | [] => "No specific city found in my database."
          | c :: _ =>
              "Found Data: " ++ city c ++ ", STATE:" ++ state c
              ++ ", HOTEL:" ++ Number_toString (avgHotelPerNight c)
              ++ ", FOOD:" ++ Number_toString (avgFoodPerDay c)
              ++ ", SPOTS:" ++ join ", " (map name (topSpots c))
          end
       ++ nl ++ "        RAG Context: "
       ++ join (nl ++ "---" ++ nl)
               (map (fun s => "[From " ++ sourceLabel s ++ "]: "
                              ++ snippet_text s) snippets)
       ++ nl ++ "      "
  /\ join snippet_delimiter
          (map snippet_line (@nil (@RetrievedSnippet number)))
     = EmptyString.
Proof.
  split; [apply ragContext_rows |].
  split; [apply finalContext_fuse |].
  split; [| reflexivity].
  destruct cityHits; reflexivity.
Qed.

(** C4, as amended.  The context is never empty.  When no city is hit and
    no row is found, it holds the sentence that no city was found, and its
    retrieved-context section is the label followed by the empty text: no
    placeholder is written there. *)
Theorem fused_context_nonempty (structured rag : string) :
  finalContext structured rag <> EmptyString
  /\ ragContext None = Normal EmptyString
  /\ ragContext (Some []) = Normal EmptyString
  /\ finalContext (structuredContext Number_toString []) EmptyString
     = nl ++ "        Structured Data: No specific city found in my database."
       ++ nl ++ "        RAG Context: " ++ nl ++ "      ".
Proof.
  split; [discriminate |]. repeat split.
Qed.

End ContextFacts.

(** The placeholder occurs once in the template. *)
Lemma systemPrompt_placeholder :
  systemPrompt = prompt_before ++ "{context}" ++ prompt_after
  /\ includes prompt_before "{context}" = false
  /\ includes prompt_after "{context}" = false
  /\ Js.find systemPrompt "{context}" = Some (prompt_before, prompt_after).
Proof. repeat split; vm_compute; reflexivity. Qed.

Lemma GetSubstitution_no_dollar (matched before after template : string) :
  no_dollar template = true ->
  GetSubstitution matched before after template = template.
Proof.
  induction template as [|c r IH]; simpl; [reflexivity |].
  intros H. apply andb_true_iff in H as [Hc Hr].
  apply negb_true_iff in Hc. rewrite Hc. now rewrite IH.
Qed.

(** Without a dollar sign in the context, the first turn is the template
    with the context in the place of the placeholder. *)
Lemma finalSystemPrompt_no_dollar (context : string) :
  no_dollar context = true ->
  finalSystemPrompt context = prompt_before ++ context ++ prompt_after.
Proof.
  intros H. unfold finalSystemPrompt, replace.
  destruct systemPrompt_placeholder as [_ [_ [_ ->]]].
  now rewrite GetSubstitution_no_dollar.
Qed.

(** The seed has two turns: the prompt in the role of the user, the
    acknowledgement in the role of the model. *)
Lemma history_two_turns (context : string) :
  history context
  = [mkContent role_user [replace systemPrompt "{context}" context];
     mkContent role_model
       ["Okie dokie! ✨ Ready to help plan the best trip ever! 🎒"]].
Proof. reflexivity. Qed.

(** C8, where it fails.  A row whose text holds [$$] reaches the
    prompt with one dollar sign only, and a row whose text holds [$&]
    brings the placeholder back into the prompt: the first turn is not the
    template with the context in the place of the placeholder. *)
Theorem prompt_dollar_patterns :
  let context :=
    finalContext "No specific city found in my database."
                 "[From goa.txt]: Hotels: $$ (mid-range)" in
  let context' :=
    finalContext "No specific city found in my database."
                 "[From goa.txt]: Ask for the $& rate" in
  String.eqb (finalSystemPrompt context)
             (prompt_before ++ context ++ prompt_after) = false
  /\ includes context "Hotels: $$ (mid-range)" = true
  /\ includes (finalSystemPrompt context) "Hotels: $$ (mid-range)" = false
  /\ includes (finalSystemPrompt context) "Hotels: $ (mid-range)" = true
  /\ includes (finalSystemPrompt context') "Ask for the {context} rate" = true.
Proof. repeat split; vm_compute; reflexivity. Qed.

(** ** The calls made by the handler *)

Section CallFacts.

Context {number : Type}.
Variable Number_toString : number -> string.
Variable dependencies : @AppDependencies number.

(** When every collaborator answers, the first half of the handler makes
    three calls and opens the session on the history of the context. *)
Lemma open_chat_success (req : Request) (w : World) q v r rag chat :
  call_trim (or_else (query req) (JsString EmptyString)) = Normal q ->
  embedQuery (geminiEmbedder dependencies) q = Normal v ->
  rpc (supabaseClient dependencies) (dbQueryName dependencies) v 3
  = Normal r ->
  error r = None ->
  ragContext (data r) = Normal rag ->
  startChat (chatModel dependencies)
    (history (finalContext
                (structuredContext Number_toString
                   (searchCity q (cities dependencies))) rag))
  = Normal chat ->
  open_chat Number_toString dependencies req w
  = (Normal (q, chat),
     mkWorld (res w)
       (calls w ++
        [call_embedQuery q;
         call_rpc (dbQueryName dependencies) v 3;
         call_startChat
           (history (finalContext
                       (structuredContext Number_toString
                          (searchCity q (cities dependencies))) rag))])
       (console_error w)).
Proof.
  intros Hq Hv Hr He Hrag Hchat. unfold open_chat. run.
  rewrite Hq. simpl. rewrite Hv. simpl. rewrite Hr. simpl.
  rewrite He. simpl. rewrite Hrag. simpl. rewrite Hchat. simpl.
  now rewrite <- !app_assoc.
Qed.

(** With the rows of [snippets] found, the session is opened on the
    history of the fused context. *)
Lemma open_chat_fuses (req : Request) (w : World) q v r chat
    (snippets : list RetrievedSnippet) :
  call_trim (or_else (query req) (JsString EmptyString)) = Normal q ->
  embedQuery (geminiEmbedder dependencies) q = Normal v ->
  rpc (supabaseClient dependencies) (dbQueryName dependencies) v 3
  = Normal r ->
  error r = None ->
  data r = Some (map row_of_snippet snippets) ->
  startChat (chatModel dependencies)
    (history (fuse Number_toString
                (hd_error (searchCity q (cities dependencies))) snippets))
  = Normal chat ->
  open_chat Number_toString dependencies req w
  = (Normal (q, chat),
     mkWorld (res w)
       (calls w ++
        [call_embedQuery q;
         call_rpc (dbQueryName dependencies) v 3;
         call_startChat
           (history (fuse Number_toString
                       (hd_error (searchCity q (cities dependencies)))
                       snippets))])
       (console_error w)).
Proof.
  intros Hq Hv Hr He Hdata Hchat.
  rewrite <- (finalContext_fuse Number_toString _ snippets) in Hchat |- *.
  apply (open_chat_success req w q v r _ chat); auto.
  rewrite Hdata. apply ragContext_rows.
Qed.

(** The embedder is called on the trimmed query before anything else. *)
Lemma open_chat_calls_embedder (req : Request) (w : World) q :
  call_trim (or_else (query req) (JsString EmptyString)) = Normal q ->
  exists rest,
    calls (snd (open_chat Number_toString dependencies req w))
    = (calls w ++ call_embedQuery q :: rest)%list.
Proof.
  intros Hq. unfold open_chat. run. rewrite Hq. simpl.
  destruct (embedQuery _ _) as [v|e]; simpl; [| now exists []].
  destruct (rpc _ _ _ _) as [r|e]; simpl;
    [| eexists; now rewrite <- app_assoc].
  destruct (error r) as [rpcError|]; simpl;
    [eexists; now rewrite <- app_assoc |].
  destruct (ragContext _) as [rag|e]; simpl;
    [| eexists; now rewrite <- app_assoc].
  destruct (startChat _ _) as [chat|e]; simpl;
    eexists; now rewrite <- !app_assoc.
Qed.

(** After the first half, the streaming form sends the head of the event
    stream and calls the model with the query; when the first half fails,
    no further call is made. *)
Lemma chat_stream_after_open (req : Request) hs :
  match open_chat Number_toString dependencies req (fresh hs) with
  | (Normal (q, chat), w') =>
      calls (snd (chat_stream Number_toString dependencies req (fresh hs)))
      = (calls w' ++ [call_sendMessageStream q])%list
      /\ head (res (snd (chat_stream Number_toString dependencies req
                           (fresh hs))))
         = Some (200, event_stream_headers hs)
  | (Throw e, w') =>
      calls (snd (chat_stream Number_toString dependencies req (fresh hs)))
      = calls w'
  end.
Proof.
  unfold chat_stream, try_catch, chat_stream_try, bind.
  pose proof (open_chat_res Number_toString dependencies req (fresh hs))
    as Hres.
  destruct (open_chat Number_toString dependencies req (fresh hs))
    as [[[q chat]|e] [r cl ce]]; simpl in Hres; subst r.
  - simpl fst; simpl snd. rewrite stream_reply_run.
    destruct (sendMessageStream chat q) as [result|e]; cbv zeta.
    + destruct (snd (delivered (stream result) (stream_failure result)));
        [unfold event_response; rewrite catch_mid_send |]; now split.
    + unfold event_response. rewrite catch_mid_send. now split.
  - rewrite catch_before_send. reflexivity.
Qed.

(** C9.  When the embedding succeeds and the similarity search succeeds
    with no row ([null] or the empty array), the handler builds the
    context of the first city hit with zero snippets, opens the session on
    it and, the session being opened, sends the head of the event stream
    with status 200 and calls the model with the query. *)
Theorem zero_rows_reach_model (req : Request) hs q v r chat :
  call_trim (or_else (query req) (JsString EmptyString)) = Normal q ->
  embedQuery (geminiEmbedder dependencies) q = Normal v ->
  rpc (supabaseClient dependencies) (dbQueryName dependencies) v 3
  = Normal r ->
  error r = None ->
  data r = None \/ data r = Some [] ->
  startChat (chatModel dependencies)
    (history (fuse Number_toString
                (hd_error (searchCity q (cities dependencies))) []))
  = Normal chat ->
  calls (snd (chat_stream Number_toString dependencies req (fresh hs)))
  = [call_embedQuery q;
     call_rpc (dbQueryName dependencies) v 3;
     call_startChat
       (history (fuse Number_toString
                   (hd_error (searchCity q (cities dependencies))) []));
     call_sendMessageStream q]
  /\ head (res (snd (chat_stream Number_toString dependencies req
                       (fresh hs))))
     = Some (200, event_stream_headers hs).
Proof.
  intros Hq Hv Hr He Hdata Hchat.
  pose proof (chat_stream_after_open req hs) as H.
  rewrite <- (finalContext_fuse Number_toString _ []) in Hchat |- *.
  rewrite (open_chat_success req (fresh hs) q v r EmptyString chat) in H;
    auto using ragContext_zero_rows.
Qed.

(** C10.  When the [query] field is missing, [null] or the empty string,
    the query is the empty string; the collaborators answering, the
    handler calls the embedder on it, then the similarity search, opens
    the session and calls the model with the empty query, on a response
    of status 200. *)
Theorem empty_query_not_rejected (req : Request) hs v r rag chat :
  query req = undefined \/ query req = null
  \/ query req = JsString EmptyString ->
  embedQuery (geminiEmbedder dependencies) EmptyString = Normal v ->
  rpc (supabaseClient dependencies) (dbQueryName dependencies) v 3
  = Normal r ->
  error r = None ->
  ragContext (data r) = Normal rag ->
  startChat (chatModel dependencies)
    (history (finalContext
                (structuredContext Number_toString
                   (searchCity EmptyString (cities dependencies))) rag))
  = Normal chat ->
  call_trim (or_else (query req) (JsString EmptyString)) = Normal EmptyString
  /\ calls (snd (chat_stream Number_toString dependencies req (fresh hs)))
     = [call_embedQuery EmptyString;
        call_rpc (dbQueryName dependencies) v 3;
        call_startChat
          (history (finalContext
                      (structuredContext Number_toString
                         (searchCity EmptyString (cities dependencies)))
                      rag));
        call_sendMessageStream EmptyString]
  /\ head (res (snd (chat_stream Number_toString dependencies req
                       (fresh hs))))
     = Some (200, event_stream_headers hs).
Proof.
  intros Hquery Hv Hr He Hrag Hchat.
  assert (Hq : call_trim (or_else (query req) (JsString EmptyString))
               = Normal EmptyString).
  { destruct Hquery as [-> | [-> | ->]]; reflexivity. }
  split; [exact Hq |].
  pose proof (chat_stream_after_open req hs) as H.
  rewrite (open_chat_success req (fresh hs) EmptyString v r rag chat) in H;
    auto.
Qed.

(** Whatever the collaborators do, a request without a query reaches the
    embedder: its first call is the embedding of the empty string. *)
Lemma empty_query_reaches_embedder (req : Request) hs :
  query req = undefined \/ query req = null
  \/ query req = JsString EmptyString ->
  exists rest,
    calls (snd (chat_stream Number_toString dependencies req (fresh hs)))
    = call_embedQuery EmptyString :: rest.
Proof.
  intros Hquery.
  assert (Hq : call_trim (or_else (query req) (JsString EmptyString))
               = Normal EmptyString).
  { destruct Hquery as [-> | [-> | ->]]; reflexivity. }
  destruct (open_chat_calls_embedder req (fresh hs) _ Hq) as [rest Hrest].
  pose proof (chat_stream_after_open req hs) as H.
  destruct (open_chat Number_toString dependencies req (fresh hs))
    as [[[q chat]|e] w']; simpl in Hrest.
  - destruct H as [-> _]. rewrite Hrest. now eexists.
  - rewrite H, Hrest. now eexists.
Qed.

(** The buffered form: from a fresh response, the [try] block throws with
    nothing sent, and the [catch] block answers with the fixed reply. *)
Lemma chat_buffered_failure (req : Request) hs (e : Error) (w1 : World) :
  chat_buffered_try Number_toString dependencies req (fresh hs)
  = (Throw e, w1) ->
  chat_buffered Number_toString dependencies req (fresh hs)
  = (Normal tt,
     mkWorld (error_response hs) (calls w1)
             (console_error w1 ++ [("ERROR in /api/chat:", message e)])).
Proof.
  intros Htry. unfold chat_buffered, try_catch. rewrite Htry.
  assert (Hres : res w1 = mkResponse 200 hs None [] false).
  { revert Htry. unfold chat_buffered_try, bind.
    pose proof (open_chat_res Number_toString dependencies req (fresh hs))
      as Hres.
    destruct (open_chat Number_toString dependencies req (fresh hs))
      as [[[q chat]|e'] [r cl ce]]; simpl in Hres; subst r.
    - simpl fst; simpl snd. unfold buffered_reply. run.
      destruct (sendMessage chat q) as [result|e']; simpl;
        [| now intros [= <- <-]].
      destruct (response_text result) as [reply|e']; simpl;
        [| now intros [= <- <-]].
      destruct (has_header _ hs); discriminate.
    - now intros [= <- <-]. }
  destruct w1 as [r cl ce]. simpl in Hres. subst r.
  unfold chat_buffered_catch, error_response. run.
  destruct (has_header _ hs); reflexivity.
Qed.

End CallFacts.

(** ** More about searchCity and the handler *)

Section MoreSearchFacts.

Context {number : Type}.

(** X1.  [searchCity] returns exactly the records of the dataset whose
    lowercased city or state name occurs in the lowercased query, in the
    order of the dataset: the word-by-word pass never contributes. *)
Theorem searchCity_hits_iff (query : string) (cs : list (@City number)) :
  searchCity query cs = filter (direct_match (toLowerCase query)) cs
  /\ filter (word_match (split_W (toLowerCase query)))
            (filter (fun c => negb (direct_match (toLowerCase query) c)) cs)
     = []
  /\ forall c,
       In c (searchCity query cs)
       <-> In c cs
           /\ (occurs_in (toLowerCase (city c)) (toLowerCase query)
               \/ occurs_in (toLowerCase (state c)) (toLowerCase query)).
Proof.
  split; [apply searchCity_direct |]. split.
  - induction cs as [|c cs IH]; simpl; [reflexivity |].
    destruct (direct_match (toLowerCase query) c) eqn:E; simpl; [exact IH |].
    destruct (word_match (split_W (toLowerCase query)) c) eqn:W; [| exact IH].
    apply word_match_direct_match in W. congruence.
  - intros c. rewrite searchCity_direct, filter_In. unfold direct_match.
    now rewrite orb_true_iff, !includes_iff.
Qed.

End MoreSearchFacts.

Section MoreHandlerFacts.

Context {number : Type}.
Variable Number_toString : number -> string.
Variable dependencies : @AppDependencies number.

(** The calls of the first half: a prefix of the three calls, all three
    when it returns. *)
Lemma open_chat_calls (req : Request) (w : World) :
  exists q v h k,
    calls (snd (open_chat Number_toString dependencies req w))
    = (calls w
       ++ firstn k [call_embedQuery q;
                    call_rpc (dbQueryName dependencies) v 3;
                    call_startChat h])%list
    /\ forall opened,
         fst (open_chat Number_toString dependencies req w) = Normal opened ->
         k = 3 /\ fst opened = q.
Proof.
  unfold open_chat. run.
  destruct (call_trim _) as [q|e]; simpl.
  2:{ exists EmptyString, [], [], 0. simpl. rewrite app_nil_r.
      split; [reflexivity | discriminate]. }
  destruct (embedQuery _ _) as [v|e]; simpl.
  2:{ exists q, [], [], 1. split; [reflexivity | discriminate]. }
  destruct (rpc _ _ _ _) as [r|e]; simpl.
  2:{ exists q, v, [], 2. rewrite <- app_assoc.
      split; [reflexivity | discriminate]. }
  destruct (error r) as [rpcError|]; simpl.
  { exists q, v, [], 2. rewrite <- app_assoc.
    split; [reflexivity | discriminate]. }
  destruct (ragContext _) as [rag|e]; simpl.
  2:{ exists q, v, [], 2. rewrite <- app_assoc.
      split; [reflexivity | discriminate]. }
  match goal with
  | |- context [call_startChat ?h] => exists q, v, h, 3
  end.
  destruct (startChat _ _) as [chat|e]; simpl; rewrite <- !app_assoc;
    (split; [reflexivity |]); [| discriminate].
  intros opened [= <-]. now split.
Qed.

(** X2.  Each collaborator is called at most once per request and in one
    order: the calls of a request are a prefix of the embedding of the
    query, the search with three matches, the opening of the session and
    the message to the model. *)
Theorem calls_once_in_order (req : Request) hs :
  exists q v h k,
    calls (snd (chat_stream Number_toString dependencies req (fresh hs)))
    = firstn k [call_embedQuery q;
                call_rpc (dbQueryName dependencies) v 3;
                call_startChat h;
                call_sendMessageStream q].
Proof.
  destruct (open_chat_calls req (fresh hs)) as [q [v [h [k [Hcalls Hk]]]]].
  pose proof (chat_stream_after_open Number_toString dependencies req hs)
    as H.
  destruct (open_chat Number_toString dependencies req (fresh hs))
    as [[[q' chat]|e] w']; simpl in Hcalls, Hk.
  - destruct (Hk _ eq_refl) as [-> Hq]. simpl in Hq. subst q'.
    destruct H as [H _]. exists q, v, h, 4. rewrite H, Hcalls. reflexivity.
  - exists q, v, h, (Nat.min k 3). rewrite H, Hcalls.
    destruct k as [|[|[|[|k]]]]; reflexivity.
Qed.

(** X3.  A [query] that is truthy and not a string is answered with status
    500 and the fixed reply; no collaborator is called. *)
Theorem non_string_query_fails_closed (req : Request) hs :
  query req = JsObject ->
  exists w,
    chat_stream Number_toString dependencies req (fresh hs) = (Normal tt, w)
    /\ res w = error_response hs
    /\ calls w = []
    /\ console_error w
       = [("ERROR in /api/chat:",
           "(query || " ++ dq ++ dq ++ ").trim is not a function")].
Proof.
  intros Hq. unfold chat_stream, chat_stream_try, open_chat. run.
  rewrite Hq. simpl. unfold chat_stream_catch. run.
  unfold error_response, error_payload.
  destruct (has_header _ hs); eexists; repeat split.
Qed.

(** X4.  When the similarity search resolves to an error, the handler
    answers with status 500 and the fixed reply, logs the message of the
    error, and calls neither the session nor the model. *)
Theorem search_error_stops_before_model (req : Request) hs q v r rpcError :
  call_trim (or_else (query req) (JsString EmptyString)) = Normal q ->
  embedQuery (geminiEmbedder dependencies) q = Normal v ->
  rpc (supabaseClient dependencies) (dbQueryName dependencies) v 3
  = Normal r ->
  error r = Some rpcError ->
  exists w,
    chat_stream Number_toString dependencies req (fresh hs) = (Normal tt, w)
    /\ res w = error_response hs
    /\ calls w = [call_embedQuery q;
                  call_rpc (dbQueryName dependencies) v 3]
    /\ console_error w
       = [("Supabase RPC error:", pg_message rpcError);
          ("ERROR in /api/chat:",
           "Failed to match documents: " ++ pg_message rpcError)].
Proof.
  intros Hq Hv Hr He. unfold chat_stream, chat_stream_try, open_chat. run.
  rewrite Hq. simpl. rewrite Hv. simpl. rewrite Hr. simpl. rewrite He. simpl.
  unfold chat_stream_catch. run. unfold error_response, error_payload.
  destruct (has_header _ hs); eexists; repeat split.
Qed.

Lemma map_throwing_malformed (rows : list Doc) :
  (exists row, In row rows /\ metadata row = None) ->
  map_throwing render_doc rows
  = Throw (mkError "Cannot read properties of undefined (reading 'source')").
Proof.
  intros [row [Hin Hrow]].
  induction rows as [|d rows IH]; [destruct Hin |].
  simpl. unfold render_doc at 1.
  destruct (metadata d) as [m|] eqn:Hm; [| reflexivity].
  destruct Hin as [-> | Hin]; [congruence |].
  now rewrite (IH Hin).
Qed.

(** X5.  When a row of the search result has no [metadata], the handler
    answers with status 500 and the fixed reply, whatever the other rows
    are, and calls neither the session nor the model. *)
Theorem malformed_row_fails_before_model (req : Request) hs q v r rows row :
  call_trim (or_else (query req) (JsString EmptyString)) = Normal q ->
  embedQuery (geminiEmbedder dependencies) q = Normal v ->
  rpc (supabaseClient dependencies) (dbQueryName dependencies) v 3
  = Normal r ->
  error r = None ->
  data r = Some rows ->
  In row rows ->
  metadata row = None ->
  exists w,
    chat_stream Number_toString dependencies req (fresh hs) = (Normal tt, w)
    /\ res w = error_response hs
    /\ calls w = [call_embedQuery q;
                  call_rpc (dbQueryName dependencies) v 3].
Proof.
  intros Hq Hv Hr He Hdata Hin Hrow.
  unfold chat_stream, chat_stream_try, open_chat. run.
  rewrite Hq. simpl. rewrite Hv. simpl. rewrite Hr. simpl. rewrite He. simpl.
  unfold ragContext. rewrite Hdata.
  rewrite map_throwing_malformed by (exists row; now split). simpl.
  unfold chat_stream_catch. run. unfold error_response, error_payload.
  destruct (has_header _ hs); eexists; repeat split.
Qed.

Lemma delivered_all (texts : list string) :
  delivered (map (fun t => mkChunk (Normal t)) texts) None = (texts, None).
Proof.
  induction texts as [|t texts IH]; simpl; [reflexivity |].
  now rewrite IH.
Qed.

(** X6.  When the session is opened and the model streams the texts
    [texts] and completes, the body of the response is one text event per
    chunk, in the order of arrival, then [done]; the response has status
    200 and is ended. *)
Theorem stream_forwards_in_order (req : Request) hs q chat w' texts :
  open_chat Number_toString dependencies req (fresh hs)
  = (Normal (q, chat), w') ->
  sendMessageStream chat q
  = Normal (mkStreamResult (map (fun t => mkChunk (Normal t)) texts) None) ->
  exists w,
    chat_stream Number_toString dependencies req (fresh hs) = (Normal tt, w)
    /\ res w = event_response hs (map textDelta texts ++ [done]) true
    /\ parse_events (body (res w)) = Some (map textDelta texts ++ [done])%list
    /\ console_error w = console_error w'.
Proof.
  intros Hopen Hsend.
  pose proof (open_chat_res Number_toString dependencies req (fresh hs))
    as Hres.
  unfold chat_stream, try_catch, chat_stream_try, bind. rewrite Hopen.
  rewrite Hopen in Hres. destruct w' as [r cl ce]. simpl in Hres. subst r.
  simpl fst; simpl snd. rewrite stream_reply_run, Hsend. cbv zeta.
  simpl stream; simpl stream_failure. rewrite delivered_all. simpl.
  eexists. split; [reflexivity |]. simpl.
  split; [reflexivity |]. split; [| reflexivity].
  apply parse_events_wire.
Qed.

End MoreHandlerFacts.

(** ** More about the events and the prompt *)

Lemma lacks_app (c : ascii) (a b : string) :
  lacks c (a ++ b) = lacks c a && lacks c b.
Proof.
  induction a as [|d a IH]; simpl; [reflexivity |].
  now rewrite IH, andb_assoc.
Qed.

Lemma escape_char_no_break (d : ascii) :
  lacks (ascii_of_nat 10) (JSON.escape_char d) = true
  /\ lacks (ascii_of_nat 13) (JSON.escape_char d) = true.
Proof. destruct d as [[] [] [] [] [] [] [] []]; split; reflexivity. Qed.

Lemma escape_no_break (s : string) :
  lacks (ascii_of_nat 10) (JSON.escape s) = true
  /\ lacks (ascii_of_nat 13) (JSON.escape s) = true.
Proof.
  induction s as [|d s [IH1 IH2]]; simpl; [now split |].
  destruct (escape_char_no_break d) as [H1 H2].
  now rewrite !lacks_app, H1, H2, IH1, IH2.
Qed.

(** X7.  An event is written as one line: after [data: ] comes a JSON text
    that holds no line feed and no carriage return, whatever the text of
    the model or the message of the error holds, then the two line feeds
    that end the event. *)
Theorem event_is_one_line (e : StreamEvent) :
  exists payload,
    wire e = "data: " ++ payload ++ nl ++ nl
    /\ lacks (ascii_of_nat 10) payload = true
    /\ lacks (ascii_of_nat 13) payload = true.
Proof.
  unfold wire, sse. eexists. split; [reflexivity |].
  destruct e as [t | | m]; [| now split |];
    unfold JSON.stringify, JSON.quote; simpl;
    rewrite !lacks_app; simpl;
    [destruct (escape_no_break t) as [-> ->]
    | destruct (escape_no_break m) as [-> ->]]; now split.
Qed.

(** X8.  Two events have the same text on the wire only when they are the
    same event: the reader gets each event back. *)
Theorem wire_injective (e1 e2 : StreamEvent) :
  (wire e1 = wire e2 <-> e1 = e2) /\ parse_event (wire e1) = Some e1.
Proof.
  split; [| apply parse_event_wire].
  split; [| now intros ->].
  intros H. apply (f_equal parse_event) in H.
  rewrite !parse_event_wire in H. now injection H.
Qed.

(** X9.  When the context holds no dollar sign, the seed is the template
    with the context in the place of the placeholder, in the role of the
    user, followed by the acknowledgement in the role of the model. *)
Theorem seed_without_dollar (context : string) :
  no_dollar context = true ->
  history context
  = [mkContent role_user [prompt_before ++ context ++ prompt_after];
     mkContent role_model [acknowledgement]]
  /\ systemPrompt = prompt_before ++ "{context}" ++ prompt_after.
Proof.
  intros H. unfold history.
  rewrite (finalSystemPrompt_no_dollar context H).
  split; [reflexivity | apply systemPrompt_placeholder].
Qed.

(** ** The query and the chunks *)

Lemma trimEnd_cons (c : ascii) (r : string) :
  trimEnd (String c r)
  = match trimEnd r with
    | EmptyString =>
        if is_space c then EmptyString else String c EmptyString
    | String d t => String c (String d t)
    end.
Proof. reflexivity. Qed.

Lemma trimEnd_idem (s : string) : trimEnd (trimEnd s) = trimEnd s.
Proof.
  induction s as [|c r IH]; [reflexivity |].
  rewrite (trimEnd_cons c r).
  destruct (trimEnd r) as [|d t].
  - destruct (is_space c) eqn:Hc; [reflexivity |].
    rewrite trimEnd_cons. simpl. now rewrite Hc.
  - rewrite trimEnd_cons. now rewrite IH.
Qed.

Lemma trimStart_head (s : string) :
  trimStart s = EmptyString
  \/ exists c r, trimStart s = String c r /\ is_space c = false.
Proof.
  induction s as [|c r IH]; simpl; [now left |].
  destruct (is_space c) eqn:Hc; [exact IH |].
  right. now exists c, r.
Qed.

Lemma trimEnd_head (c : ascii) (r : string) :
  is_space c = false -> exists z, trimEnd (String c r) = String c z.
Proof.
  intros Hc. simpl. destruct (trimEnd r) as [|d t].
  - rewrite Hc. now exists EmptyString.
  - now exists (String d t).
Qed.

Lemma trim_idem (s : string) : trim (trim s) = trim s.
Proof.
  unfold trim. destruct (trimStart_head s) as [-> | [c [r [-> Hc]]]];
    [reflexivity |].
  destruct (trimEnd_head c r Hc) as [z Hz].
  rewrite Hz at 1. simpl trimStart. rewrite Hc, <- Hz.
  apply trimEnd_idem.
Qed.

Lemma trim_all_space (s : string) :
  all_chars is_space s = true -> trim s = EmptyString.
Proof.
  unfold trim. induction s as [|c r IH]; simpl; [reflexivity |].
  intros H. apply andb_true_iff in H as [Hc Hr]. rewrite Hc. now apply IH.
Qed.

Section QueryFacts.

Context {number : Type}.
Variable Number_toString : number -> string.
Variable dependencies : @AppDependencies number.

(** X23.  For a query that is a string, the first call of the handler is
    the embedding of the trimmed query, whatever the collaborators do;
    trimming the trimmed query again changes nothing, and a query of white
    space only is the empty query. *)
Theorem query_is_trimmed (req : Request) hs (s : string) :
  query req = JsString s ->
  (exists rest,
      calls (snd (chat_stream Number_toString dependencies req (fresh hs)))
      = call_embedQuery (trim s) :: rest)
  /\ trim (trim s) = trim s
  /\ (all_chars is_space s = true -> trim s = EmptyString).
Proof.
  intros Hs. split; [| split; [apply trim_idem | apply trim_all_space]].
  assert (Hq : call_trim (or_else (query req) (JsString EmptyString))
               = Normal (trim s)).
  { rewrite Hs. unfold or_else, truthy.
    destruct (String.eqb_spec s EmptyString) as [-> | _]; reflexivity. }
  destruct (open_chat_calls_embedder Number_toString dependencies req
              (fresh hs) _ Hq) as [rest Hrest].
  pose proof (chat_stream_after_open Number_toString dependencies req hs)
    as H.
  destruct (open_chat Number_toString dependencies req (fresh hs))
    as [[[q chat]|e] w']; simpl in Hrest.
  - destruct H as [-> _]. rewrite Hrest. now eexists.
  - rewrite H, Hrest. now eexists.
Qed.

Lemma delivered_stops (pre : list string) (e : Error) (post : list Chunk)
    (failure : option Error) :
  delivered (map (fun t => mkChunk (Normal t)) pre
             ++ mkChunk (Throw e) :: post)%list failure
  = (pre, Some e).
Proof.
  induction pre as [|t pre IH]; simpl; [reflexivity |].
  now rewrite IH.
Qed.

(** X24.  When reading the text of a chunk throws, the chunks before it
    have been forwarded, the failure is written as the [error] event, and
    no chunk after it is read or written. *)
Theorem stream_stops_at_failing_chunk (req : Request) hs q chat w'
    (pre : list string) (e : Error) (post : list Chunk)
    (failure : option Error) :
  open_chat Number_toString dependencies req (fresh hs)
  = (Normal (q, chat), w') ->
  sendMessageStream chat q
  = Normal (mkStreamResult
              (map (fun t => mkChunk (Normal t)) pre
               ++ mkChunk (Throw e) :: post)%list
              failure) ->
  exists w,
    chat_stream Number_toString dependencies req (fresh hs) = (Normal tt, w)
    /\ res w
       = event_response hs
           (map textDelta pre ++ [error_event (message e)]) true.
Proof.
  intros Hopen Hsend.
  pose proof (open_chat_res Number_toString dependencies req (fresh hs))
    as Hres.
  unfold chat_stream, try_catch, chat_stream_try, bind. rewrite Hopen.
  rewrite Hopen in Hres. destruct w' as [r cl ce]. simpl in Hres. subst r.
  simpl fst; simpl snd. rewrite stream_reply_run, Hsend. cbv zeta.
  simpl stream; simpl stream_failure. rewrite delivered_stops. simpl.
  unfold event_response. rewrite catch_mid_send.
  eexists. split; [reflexivity |]. simpl. now rewrite map_app.
Qed.

End QueryFacts.

(** ** The buffered form *)

Section BufferedFacts.

Context {number : Type}.
Variable Number_toString : number -> string.
Variable dependencies : @AppDependencies number.

Lemma buffered_reply_run (q : string) (chat : ChatSession) hs cl ce :
  buffered_reply q chat (mkWorld (mkResponse 200 hs None [] false) cl ce)
  = match sendMessage chat q with
    | Throw e =>
        (Throw e,
         @mkWorld number (mkResponse 200 hs None [] false)
                  (cl ++ [call_sendMessage q]) ce)
    | Normal result =>
        match response_text result with
        | Throw e =>
            (Throw e,
             mkWorld (mkResponse 200 hs None [] false)
                     (cl ++ [call_sendMessage q]) ce)
        | Normal reply =>
            (Normal tt,
             mkWorld (json_response hs 200 [("reply", JSON.Str reply)])
                     (cl ++ [call_sendMessage q]) ce)
        end
    end.
Proof.
  unfold buffered_reply. run.
  destruct (sendMessage chat q) as [result|e]; simpl; [| reflexivity].
  destruct (response_text result) as [reply|e]; simpl; [| reflexivity].
  unfold json_response. destruct (has_header _ hs); reflexivity.
Qed.

(** X10.  For every request, the buffered form ends the response with
    exactly one JSON body: the reply of the model with status 200, or the
    fixed reply with status 500.  No partial answer is written. *)
Theorem buffered_replies_once (req : Request) hs :
  exists w,
    chat_buffered Number_toString dependencies req (fresh hs) = (Normal tt, w)
    /\ writableEnded (res w) = true
    /\ List.length (body (res w)) = 1
    /\ (res w = error_response hs
        \/ exists reply,
             res w = json_response hs 200 [("reply", JSON.Str reply)]).
Proof.
  destruct (chat_buffered_try Number_toString dependencies req (fresh hs))
    as [[[]|e] w1] eqn:Htry.
  - unfold chat_buffered, try_catch. rewrite Htry.
    eexists. split; [reflexivity |].
    revert Htry. unfold chat_buffered_try, bind.
    pose proof (open_chat_res Number_toString dependencies req (fresh hs))
      as Hres.
    destruct (open_chat Number_toString dependencies req (fresh hs))
      as [[[q chat]|e'] [r cl ce]]; simpl in Hres; subst r;
      [| discriminate].
    simpl fst; simpl snd. rewrite buffered_reply_run.
    destruct (sendMessage chat q) as [result|e']; [| discriminate].
    destruct (response_text result) as [reply|e']; [| discriminate].
    intros [= <-]. simpl. repeat split. right. now exists reply.
  - rewrite (chat_buffered_failure _ _ _ _ _ _ Htry).
    eexists. split; [reflexivity |]. simpl. repeat split. now left.
Qed.

(** X11.  In the buffered form, when every collaborator answers, the
    response has status 200 and its body is the JSON object whose [reply]
    is the text of the model; the model is called once, with the query,
    after the session is opened. *)
Theorem buffered_returns_model_text (req : Request) hs q chat w' result
    reply :
  open_chat Number_toString dependencies req (fresh hs)
  = (Normal (q, chat), w') ->
  sendMessage chat q = Normal result ->
  response_text result = Normal reply ->
  exists w,
    chat_buffered Number_toString dependencies req (fresh hs) = (Normal tt, w)
    /\ res w = json_response hs 200 [("reply", JSON.Str reply)]
    /\ calls w = (calls w' ++ [call_sendMessage q])%list
    /\ console_error w = console_error w'.
Proof.
  intros Hopen Hsend Htext.
  pose proof (open_chat_res Number_toString dependencies req (fresh hs))
    as Hres.
  unfold chat_buffered, try_catch, chat_buffered_try, bind. rewrite Hopen.
  rewrite Hopen in Hres. destruct w' as [r cl ce]. simpl in Hres. subst r.
  simpl fst; simpl snd. rewrite buffered_reply_run, Hsend, Htext.
  eexists. repeat split.
Qed.

End BufferedFacts.

(** ** The authentication middleware and the route *)

Ltac run_st :=
  repeat progress
    (unfold ST.bind, ST.ret, ST.throw, ST.try_catch, ST.modify, ST.call,
       ST.zoom, on_world, reply_error, log_error, await_getUser, set_user;
     run).

Lemma split_on_lacks (sep : ascii) (s : string) :
  lacks sep s = true ->
  forall cur, split_on sep cur s = [cur ++ s].
Proof.
  induction s as [|c s IH]; simpl; intros H cur.
  - now rewrite append_nil_r.
  - apply andb_true_iff in H as [Hc Hs]. apply negb_true_iff in Hc.
    rewrite Hc, (IH Hs). now rewrite append_assoc.
Qed.

Lemma split_on_first (sep : ascii) (a b : string) :
  lacks sep a = true ->
  forall cur,
    split_on sep cur (a ++ String sep b)
    = (cur ++ a) :: split_on sep EmptyString b.
Proof.
  induction a as [|c a IH]; simpl; intros H cur.
  - now rewrite Ascii.eqb_refl, append_nil_r.
  - apply andb_true_iff in H as [Hc Ha]. apply negb_true_iff in Hc.
    rewrite Hc, (IH Ha). now rewrite append_assoc.
Qed.

(** The token of a header made of a scheme, a space and a token. *)
Lemma token_of_scheme (scheme token : string) :
  lacks " " scheme = true ->
  lacks " " token = true ->
  token <> EmptyString ->
  token_of (Some (scheme ++ " " ++ token)) = Some token.
Proof.
  intros Hs Ht Hne. unfold token_of, split_space.
  replace (String.eqb (scheme ++ " " ++ token) EmptyString) with false
    by (destruct scheme; reflexivity).
  change (scheme ++ " " ++ token) with (scheme ++ String " " token).
  rewrite (split_on_first " " scheme token Hs).
  rewrite (split_on_lacks " " token Ht). simpl.
  apply String.eqb_neq in Hne. now rewrite Hne.
Qed.

Section AuthFacts.

Context {number : Type}.
Variable Number_toString : number -> string.
Variable getUser : string -> Completion UserResponse.
Variable dependencies : @AppDependencies number.

Lemma reply_error_fresh (code : nat) (text : string) hs cl ce u gc :
  reply_error code text
    (mkExchange (mkWorld (mkResponse 200 hs None [] false) cl ce) u gc)
  = (Normal tt,
     @mkExchange number (mkWorld (rejection hs code text) cl ce) u gc).
Proof.
  run_st. unfold rejection. destruct (has_header _ hs); reflexivity.
Qed.

(** What the middleware does is decided by the token of the header. *)
Lemma authMiddleware_by_token (authHeader : option string)
    (next : ST.t Exchange unit) (x : @Exchange number) :
  authMiddleware getUser authHeader next x
  = match token_of authHeader with
    | None =>
        reply_error 401
          (if missing authHeader then "No authorization header."
           else "Malformed authorization header.") x
    | Some token =>
        ST.try_catch
          (ST.bind (await_getUser getUser token)
             (fun response =>
                match auth_error response, data_user response with
                | None, Some u => ST.bind (set_user u) (fun _ => next)
                | error, _ =>
                    ST.bind
                      (log_error "Auth error:"
                         (match error with
                          | Some e => auth_message e
                          | None => "undefined"
                          end))
                      (fun _ => reply_error 401 "Invalid token.")
                end))
          (fun error =>
             ST.bind (log_error "Critical auth error:" (message error))
               (fun _ => reply_error 500 "Internal authentication error."))
          x
    end.
Proof.
  unfold authMiddleware, token_of, missing.
  destruct authHeader as [h|]; [| reflexivity].
  destruct (String.eqb h EmptyString); [reflexivity |].
  destruct (nth_error (split_space h) 1) as [t|]; [| reflexivity].
  destruct (String.eqb t EmptyString); reflexivity.
Qed.

(** The runs of the middleware from a fresh exchange. *)
Lemma auth_run_no_token (authHeader : option string)
    (next : ST.t Exchange unit) hs :
  token_of authHeader = None ->
  authMiddleware getUser authHeader next (fresh_exchange hs)
  = (Normal tt,
     @mkExchange number
       (mkWorld
          (rejection hs 401
             (if missing authHeader then "No authorization header."
              else "Malformed authorization header."))
          [] [])
       None []).
Proof.
  intros Htoken. rewrite authMiddleware_by_token, Htoken.
  unfold fresh_exchange, fresh. now rewrite reply_error_fresh.
Qed.

Lemma auth_run_invalid (authHeader : option string)
    (next : ST.t Exchange unit) hs token response :
  token_of authHeader = Some token ->
  getUser token = Normal response ->
  auth_error response <> None \/ data_user response = None ->
  authMiddleware getUser authHeader next (fresh_exchange hs)
  = (Normal tt,
     @mkExchange number
       (mkWorld (rejection hs 401 "Invalid token.") []
                [("Auth error:",
                  match auth_error response with
                  | Some e => auth_message e
                  | None => "undefined"
                  end)])
       None [token]).
Proof.
  intros Htoken Hget Hbad. rewrite authMiddleware_by_token, Htoken.
  unfold fresh_exchange, fresh. run_st. rewrite Hget. simpl.
  destruct (auth_error response) as [e|] eqn:He.
  - run_st. unfold rejection. destruct (has_header _ hs); reflexivity.
  - destruct Hbad as [Hbad | Hbad]; [congruence |]. rewrite Hbad.
    run_st. unfold rejection. destruct (has_header _ hs); reflexivity.
Qed.

Lemma auth_run_throw (authHeader : option string)
    (next : ST.t Exchange unit) hs token e :
  token_of authHeader = Some token ->
  getUser token = Throw e ->
  authMiddleware getUser authHeader next (fresh_exchange hs)
  = (Normal tt,
     @mkExchange number
       (mkWorld (rejection hs 500 "Internal authentication error.") []
                [("Critical auth error:", message e)])
       None [token]).
Proof.
  intros Htoken Hget. rewrite authMiddleware_by_token, Htoken.
  unfold fresh_exchange, fresh. run_st. rewrite Hget. simpl. run_st.
  unfold rejection. destruct (has_header _ hs); reflexivity.
Qed.

(** The streaming handler returns. *)
Lemma chat_stream_returns (req : Request) hs :
  fst (chat_stream Number_toString dependencies req (fresh hs)) = Normal tt.
Proof.
  destruct (chat_stream_try Number_toString dependencies req (fresh hs))
    as [c [r cl ce]] eqn:Htry.
  unfold chat_stream, try_catch. rewrite Htry.
  destruct (chat_stream_try_cases Number_toString dependencies req hs _ _ Htry)
    as [[e [-> Hres]] | [[e [texts [-> Hres]]] | [texts [-> Hres]]]];
    simpl in Hres; subst r.
  - now rewrite catch_before_send.
  - unfold event_response. now rewrite catch_mid_send.
  - reflexivity.
Qed.

Lemma route_run_verified (req : HttpRequest) hs token u :
  token_of (authorization req) = Some token ->
  getUser token = Normal (mkUserResponse (Some u) None) ->
  chat_route Number_toString getUser dependencies req (fresh_exchange hs)
  = (Normal tt,
     mkExchange
       (snd (chat_stream Number_toString dependencies (chat_request req)
               (fresh hs)))
       (Some u) [token]).
Proof.
  intros Htoken Hget. unfold chat_route.
  rewrite authMiddleware_by_token, Htoken.
  unfold fresh_exchange. run_st. rewrite Hget. simpl. run_st.
  pose proof (chat_stream_returns (chat_request req) hs) as Hret.
  destruct (chat_stream Number_toString dependencies (chat_request req)
              (fresh hs)) as [c w]. simpl in Hret. subst c. reflexivity.
Qed.

(** X12.  A request without a usable token (no header, an empty header, or
    no second piece after a space) is answered with status 401 and one
    JSON error; the identity provider is not called, and what follows the
    middleware does not run. *)
Theorem auth_rejects_before_provider (authHeader : option string)
    (next : ST.t Exchange unit) hs :
  token_of authHeader = None ->
  exists text,
    (text = "No authorization header."
     \/ text = "Malformed authorization header.")
    /\ authMiddleware getUser authHeader next (fresh_exchange hs)
       = (Normal tt,
          @mkExchange number (mkWorld (rejection hs 401 text) [] []) None [])
    /\ writableEnded (rejection hs 401 text) = true
    /\ body (rejection hs 401 text)
       = [JSON.stringify [("error", JSON.Str text)]].
Proof.
  intros Htoken. rewrite (auth_run_no_token _ _ _ Htoken).
  eexists. split; [| repeat split].
  destruct (missing authHeader); auto.
Qed.

(** X13.  When the provider answers the token with an error or with no
    user, the request is answered with status 401 and [Invalid token.];
    the provider was called once, with the token, and what follows the
    middleware does not run. *)
Theorem auth_invalid_token (authHeader : option string)
    (next : ST.t Exchange unit) hs token response :
  token_of authHeader = Some token ->
  getUser token = Normal response ->
  auth_error response <> None \/ data_user response = None ->
  exists x : @Exchange number,
    authMiddleware getUser authHeader next (fresh_exchange hs)
    = (Normal tt, x)
    /\ res (world x) = rejection hs 401 "Invalid token."
    /\ calls (world x) = []
    /\ req_user x = None
    /\ getUser_calls x = [token].
Proof.
  intros Htoken Hget Hbad.
  rewrite (auth_run_invalid _ _ _ _ _ Htoken Hget Hbad).
  eexists. repeat split.
Qed.

(** X14.  When the call to the provider throws, the request is answered
    with status 500 and a fixed text; the message of the failure is only
    logged, and what follows the middleware does not run. *)
Theorem auth_provider_failure (authHeader : option string)
    (next : ST.t Exchange unit) hs token e :
  token_of authHeader = Some token ->
  getUser token = Throw e ->
  exists x : @Exchange number,
    authMiddleware getUser authHeader next (fresh_exchange hs)
    = (Normal tt, x)
    /\ res (world x) = rejection hs 500 "Internal authentication error."
    /\ console_error (world x) = [("Critical auth error:", message e)]
    /\ calls (world x) = []
    /\ req_user x = None
    /\ getUser_calls x = [token].
Proof.
  intros Htoken Hget. rewrite (auth_run_throw _ _ _ _ _ Htoken Hget).
  eexists. repeat split.
Qed.

(** X15.  When the provider answers the token with a user and no error,
    the route runs the chat handler on the untouched response, with the
    user attached to the request; the provider was called once. *)
Theorem route_accepts_verified (req : HttpRequest) hs token u :
  token_of (authorization req) = Some token ->
  getUser token = Normal (mkUserResponse (Some u) None) ->
  exists x,
    chat_route Number_toString getUser dependencies req (fresh_exchange hs)
    = (Normal tt, x)
    /\ world x
       = snd (chat_stream Number_toString dependencies (chat_request req)
                (fresh hs))
    /\ req_user x = Some u
    /\ getUser_calls x = [token].
Proof.
  intros Htoken Hget. rewrite (route_run_verified _ _ _ _ Htoken Hget).
  eexists. repeat split.
Qed.

(** X16.  On the route, a collaborator of the chat handler is called only
    for a request whose token the provider answered with a user and no
    error; that user is then attached to the request. *)
Theorem route_calls_need_verified_user (req : HttpRequest) hs :
  calls (world (snd (chat_route Number_toString getUser dependencies req
                       (fresh_exchange hs)))) <> [] ->
  exists token u,
    token_of (authorization req) = Some token
    /\ getUser token = Normal (mkUserResponse (Some u) None)
    /\ req_user (snd (chat_route Number_toString getUser dependencies req
                        (fresh_exchange hs))) = Some u.
Proof.
  intros Hcalls.
  destruct (token_of (authorization req)) as [token|] eqn:Htoken.
  - destruct (getUser token) as [[user err]|e] eqn:Hget.
    + destruct user as [u|]; [destruct err as [err|] |].
      * exfalso. apply Hcalls. unfold chat_route.
        rewrite (auth_run_invalid _ _ hs token _ Htoken Hget);
          [reflexivity | left; discriminate].
      * exists token, u. split; [reflexivity |]. split; [exact Hget |].
        now rewrite (route_run_verified req hs token u Htoken Hget).
      * exfalso. apply Hcalls. unfold chat_route.
        rewrite (auth_run_invalid _ _ hs token _ Htoken Hget);
          [reflexivity | now right].
    + exfalso. apply Hcalls. unfold chat_route.
      now rewrite (auth_run_throw _ _ hs token e Htoken Hget).
  - exfalso. apply Hcalls. unfold chat_route.
    now rewrite (auth_run_no_token _ _ hs Htoken).
Qed.

(** X17.  The middleware does not look at the scheme of the header: a
    header made of any word, a space and a token is treated as the header
    [Bearer] with that token. *)
Theorem auth_scheme_ignored (scheme token : string)
    (next : ST.t Exchange unit) (x : @Exchange number) :
  lacks " " scheme = true ->
  lacks " " token = true ->
  token <> EmptyString ->
  authMiddleware getUser (Some (scheme ++ " " ++ token)) next x
  = authMiddleware getUser (Some ("Bearer " ++ token)) next x.
Proof.
  intros Hs Ht Hne. rewrite !authMiddleware_by_token.
  rewrite (token_of_scheme scheme token Hs Ht Hne).
  change ("Bearer " ++ token) with ("Bearer" ++ " " ++ token).
  now rewrite (token_of_scheme "Bearer" token eq_refl Ht Hne).
Qed.

End AuthFacts.

(** ** The ingestion script *)

Section IngestFacts.

Context {number : Type}.
Variable deps : @IngestDependencies number.

Lemma slice_batch (i : nat) (rows : list (@Row number)) :
  slice i (i + BATCH_SIZE) rows = firstn BATCH_SIZE (skipn i rows).
Proof. unfold slice. now replace (i + BATCH_SIZE - i) with BATCH_SIZE by lia. Qed.

Lemma batch_ok_slice (i : nat) (rows : list (@Row number)) :
  i < List.length rows -> batch_ok (slice i (i + BATCH_SIZE) rows).
Proof.
  intros Hi. rewrite slice_batch. unfold batch_ok.
  rewrite length_firstn, length_skipn. unfold BATCH_SIZE. lia.
Qed.

Lemma batch_then_rest (i : nat) (rows : list (@Row number)) :
  (slice i (i + BATCH_SIZE) rows ++ skipn (i + BATCH_SIZE) rows)%list
  = skipn i rows.
Proof.
  rewrite slice_batch.
  replace (i + BATCH_SIZE) with (BATCH_SIZE + i) by lia.
  rewrite <- skipn_skipn. apply firstn_skipn.
Qed.

(** The loop: the batches it sends, and the table it leaves. *)
Lemma insert_batches_run (rows : list (@Row number)) (fuel : nat) :
  forall i s c s',
    List.length rows - i <= fuel ->
    insert_batches deps fuel i rows s = (c, s') ->
    exists sent,
      inserts s' = (inserts s ++ sent)%list
      /\ Forall batch_ok sent
      /\ embed_calls s' = embed_calls s
      /\ stderr s' = stderr s
      /\ exit_code s' = exit_code s
      /\ match c with
         | Returned _ =>
             concat sent = skipn i rows
             /\ documents s' = (documents s ++ concat sent)%list
         | Raised _ =>
             exists bs b rest,
               sent = (bs ++ [b])%list
               /\ documents s' = (documents s ++ concat bs)%list
               /\ skipn i rows = (concat sent ++ rest)%list
         end.
Proof.
  induction fuel as [|fuel IH]; intros i s c s' Hfuel Hrun; simpl in Hrun.
  - injection Hrun as <- <-. exists []. rewrite !app_nil_r.
    repeat split; auto. simpl. symmetry. apply skipn_all2. lia.
  - destruct (Nat.ltb i (List.length rows)) eqn:Hi.
    2:{ apply Nat.ltb_ge in Hi. injection Hrun as <- <-. exists [].
        rewrite !app_nil_r. repeat split; auto.
        simpl. symmetry. now apply skipn_all2. }
    apply Nat.ltb_lt in Hi.
    pose proof (batch_ok_slice i rows Hi) as Hok.
    pose proof (batch_then_rest i rows) as Hrest.
    set (batch := slice i (i + BATCH_SIZE) rows) in *.
    unfold SC.bind, await_insert in Hrun.
    destruct (table_insert deps batch) as [[e|]|e] eqn:Hins; simpl in Hrun.
    + injection Hrun as <- <-. simpl. exists [batch]. repeat split; auto.
      exists [], batch, (skipn (i + BATCH_SIZE) rows). simpl.
      rewrite !app_nil_r. repeat split; auto.
    + apply IH in Hrun; [| unfold BATCH_SIZE; lia].
      destruct Hrun as [sent [Hsent [Hall [Hec [Herr [Hexit Hcase]]]]]].
      simpl in Hsent, Hec, Herr, Hexit, Hcase.
      exists (batch :: sent). rewrite Hsent, <- app_assoc. simpl.
      repeat split; auto.
      destruct c.
      * destruct Hcase as [Hconcat Hdocs]. rewrite Hdocs, Hconcat.
        rewrite <- app_assoc, Hrest. now split.
      * destruct Hcase as [bs [b [rest [-> [Hdocs Hskip]]]]].
        exists (batch :: bs), b, rest. split; [reflexivity |]. split.
        -- rewrite Hdocs, <- app_assoc. reflexivity.
        -- rewrite <- Hrest, Hskip. simpl. now rewrite app_assoc.
    + injection Hrun as <- <-. simpl. exists [batch]. repeat split; auto.
      exists [], batch, (skipn (i + BATCH_SIZE) rows). simpl.
      rewrite !app_nil_r. repeat split; auto.
Qed.

Lemma insert_batches_no_throw (rows : list (@Row number)) (fuel : nat) :
  (forall batch, table_insert deps batch = Normal None) ->
  forall i s, fst (insert_batches deps fuel i rows s) = Returned tt.
Proof.
  intros Hins. induction fuel as [|fuel IH]; intros i s; simpl;
    [reflexivity |].
  destruct (Nat.ltb i (List.length rows)); [| reflexivity].
  unfold SC.bind, await_insert. rewrite Hins. apply IH.
Qed.

Lemma read_documents_store (files : list string) :
  forall s, snd (read_documents deps files s) = s.
Proof.
  induction files as [|file rest IH]; intros s; simpl; [reflexivity |].
  unfold SC.bind at 1. unfold awaited, SC.call.
  destruct (readFile deps _) as [content|e]; simpl; [| reflexivity].
  unfold SC.bind. specialize (IH s).
  destruct (read_documents deps rest s) as [[docs|e] s1]; simpl in *;
    exact IH.
Qed.

Lemma read_documents_run (files : list string) (contents : string -> string) :
  (forall file,
      In file files ->
      readFile deps (path_join deps KNOWLEDGE_DIR file)
      = Normal (contents file)) ->
  forall s,
    read_documents deps files s
    = (Returned (map (fun f => mkDocument (contents f) (mkMetadata f)) files),
       s).
Proof.
  induction files as [|file rest IH]; intros Hread s; simpl; [reflexivity |].
  unfold SC.bind at 1. unfold awaited, SC.call.
  rewrite (Hread file (or_introl eq_refl)). unfold SC.bind.
  rewrite IH by (intros f Hf; apply Hread; now right). reflexivity.
Qed.

Lemma rows_from_ok (chunks : list Document)
    (embeddings : list (list number)) :
  forall i, Forall row_ok (rows_from i (filter valid_chunk chunks) embeddings).
Proof.
  induction chunks as [|chunk rest IH]; intros i; simpl; [constructor |].
  destruct (valid_chunk chunk) eqn:Hv; [| apply IH]. simpl.
  destruct (nth_error embeddings i) as [[|x e]|]; try apply IH.
  constructor; [| apply IH].
  split; simpl; [| discriminate].
  now apply Nat.ltb_lt in Hv.
Qed.

Lemma Forall_concat_prefix {A : Type} (P : A -> Prop)
    (bs : list (list A)) (b rest rows : list A) :
  Forall P rows ->
  rows = (concat (bs ++ [b]) ++ rest)%list ->
  Forall P (concat bs).
Proof.
  intros Hall ->. rewrite concat_app in Hall.
  now apply Forall_app in Hall as [Hall _]; apply Forall_app in Hall as [Hall _].
Qed.

(** What steps 3 and 4 leave, from an empty table. *)
Lemma embed_and_insert_inv (allChunks : list Document) c s' :
  embed_and_insert deps allChunks (mkStore [] [] [] [] None) = (c, s') ->
  stderr s' = [] /\ exit_code s' = None
  /\ Forall batch_ok (inserts s') /\ Forall row_ok (documents s')
  /\ match c with
     | Returned _ => documents s' = concat (inserts s')
     | Raised _ =>
         (inserts s' = [] /\ documents s' = [])
         \/ exists bs b,
              inserts s' = (bs ++ [b])%list /\ documents s' = concat bs
     end.
Proof.
  unfold embed_and_insert.
  destruct (Nat.eqb (List.length (filter valid_chunk allChunks)) 0).
  { intros [= <- <-]. simpl. repeat split; constructor. }
  unfold SC.bind at 1. unfold await_embedDocuments, awaited, SC.call.
  destruct (embedDocuments deps _) as [embeddings|e]; simpl.
  2:{ intros [= <- <-]. simpl.
      repeat split; first [reflexivity | constructor; fail | left; now split]. }
  destruct (negb (Nat.eqb (List.length embeddings) _)).
  { intros [= <- <-]. simpl.
      repeat split; first [reflexivity | constructor; fail | left; now split]. }
  pose proof (rows_from_ok allChunks embeddings 0) as Hrows.
  set (rows := rows_from 0 (filter valid_chunk allChunks) embeddings) in *.
  destruct (Nat.eqb (List.length rows) 0).
  { intros [= <- <-]. simpl.
      repeat split; first [reflexivity | constructor; fail | left; now split]. }
  intros Hrun. apply insert_batches_run in Hrun; [| lia].
  destruct Hrun as [sent [Hsent [Hall [_ [Herr [Hexit Hcase]]]]]].
  simpl in Hsent, Herr, Hexit, Hcase. subst sent.
  split; [exact Herr |]. split; [exact Hexit |]. split; [exact Hall |].
  destruct c.
  - destruct Hcase as [Hconcat Hdocs]. rewrite Hdocs, Hconcat.
    now split.
  - destruct Hcase as [bs [b [rest [Hbs [Hdocs Hskip]]]]].
    rewrite Hdocs, Hbs in *. split.
    + now apply (Forall_concat_prefix row_ok bs b rest rows).
    + right. now exists bs, b.
Qed.

(** Steps 1 and 2, when they succeed: the table is empty and the chunks go
    on to the embedder. *)
Lemma ingest_try_after_split (old : list Row) (files : list string)
    (contents : string -> string) (allChunks : list Document) :
  table_delete deps = Normal None ->
  readdir deps KNOWLEDGE_DIR = Normal files ->
  (forall file,
      In file (filter (fun f => endsWith f ".txt") files) ->
      readFile deps (path_join deps KNOWLEDGE_DIR file)
      = Normal (contents file)) ->
  splitDocuments deps
    (map (fun f => mkDocument (contents f) (mkMetadata f))
         (filter (fun f => endsWith f ".txt") files))
  = Normal allChunks ->
  ingestData_try deps (store_with old)
  = embed_and_insert deps allChunks (mkStore [] [] [] [] None).
Proof.
  intros Hdel Hdir Hread Hsplit. unfold ingestData_try, store_with.
  unfold SC.bind at 1. unfold await_delete. rewrite Hdel.
  unfold SC.bind at 1. unfold SC.ret at 1.
  unfold SC.bind at 1. unfold awaited at 1. unfold SC.call at 1.
  rewrite Hdir.
  unfold SC.bind at 1. rewrite (read_documents_run _ contents Hread).
  unfold SC.bind at 1. unfold awaited at 1. unfold SC.call at 1.
  now rewrite Hsplit.
Qed.

Lemma ingest_try_inv (old : list Row) c s' :
  table_delete deps = Normal None ->
  ingestData_try deps (store_with old) = (c, s') ->
  stderr s' = [] /\ exit_code s' = None
  /\ Forall batch_ok (inserts s') /\ Forall row_ok (documents s')
  /\ match c with
     | Returned _ => documents s' = concat (inserts s')
     | Raised _ =>
         (inserts s' = [] /\ documents s' = [])
         \/ exists bs b,
              inserts s' = (bs ++ [b])%list /\ documents s' = concat bs
     end.
Proof.
  intros Hdel. unfold ingestData_try, store_with.
  unfold SC.bind at 1. unfold await_delete. rewrite Hdel.
  unfold SC.bind at 1. unfold SC.ret at 1.
  unfold SC.bind at 1. unfold awaited at 1. unfold SC.call at 1.
  destruct (readdir deps KNOWLEDGE_DIR) as [files|e].
  2:{ intros [= <- <-]. simpl.
      repeat split; first [reflexivity | constructor; fail | left; now split]. }
  unfold SC.bind at 1.
  pose proof (read_documents_store
                (filter (fun f => endsWith f ".txt") files)
                (mkStore [] [] [] [] None)) as Hstore.
  destruct (read_documents deps _ _) as [[docs|e] s1]; simpl in Hstore;
    subst s1.
  2:{ intros [= <- <-]. simpl.
      repeat split; first [reflexivity | constructor; fail | left; now split]. }
  unfold SC.bind at 1. unfold awaited at 1. unfold SC.call at 1.
  destruct (splitDocuments deps docs) as [allChunks|e].
  2:{ intros [= <- <-]. simpl.
      repeat split; first [reflexivity | constructor; fail | left; now split]. }
  apply embed_and_insert_inv.
Qed.

(** The [catch] block: one line with the message, one more with the cause
    when the error has one, and the exit code 1. *)
Lemma ingestData_catch_run (err : Thrown) (s : @Store number) :
  ingestData_catch err s
  = (Normal tt,
     mkStore (documents s) (inserts s) (embed_calls s)
       (stderr s
        ++ ("Ingestion failed: " ++ message (thrown_error err))%string
           :: match thrown_cause err with
              | Some cause => [("Cause: " ++ cause)%string]
              | None => []
              end)%list
       (Some 1)).
Proof.
  unfold ingestData_catch, console_error_line, process_exit, ST.bind,
    ST.modify, ST.ret.
  destruct (thrown_cause err); simpl; rewrite <- ?app_assoc; reflexivity.
Qed.

(** X18.  When every step succeeds, the table holds exactly the rows built
    from the valid chunks and their embeddings, in order, each once; they
    were sent in batches of at most [BATCH_SIZE] rows, none empty; the
    embedder was called once, and the script does not exit. *)
Theorem ingest_success (old : list Row) (files : list string)
    (contents : string -> string) (allChunks : list Document)
    (embeddings : list (list number)) :
  table_delete deps = Normal None ->
  readdir deps KNOWLEDGE_DIR = Normal files ->
  (forall file,
      In file (filter (fun f => endsWith f ".txt") files) ->
      readFile deps (path_join deps KNOWLEDGE_DIR file)
      = Normal (contents file)) ->
  splitDocuments deps
    (map (fun f => mkDocument (contents f) (mkMetadata f))
         (filter (fun f => endsWith f ".txt") files))
  = Normal allChunks ->
  embedDocuments deps (map pageContent (filter valid_chunk allChunks))
  = Normal embeddings ->
  List.length embeddings = List.length (filter valid_chunk allChunks) ->
  rows_from 0 (filter valid_chunk allChunks) embeddings <> [] ->
  (forall batch, table_insert deps batch = Normal None) ->
  exists batches,
    ingestData deps (store_with old)
    = (Normal tt,
       mkStore (rows_from 0 (filter valid_chunk allChunks) embeddings)
               batches
               [map pageContent (filter valid_chunk allChunks)] [] None)
    /\ concat batches
       = rows_from 0 (filter valid_chunk allChunks) embeddings
    /\ Forall batch_ok batches.
Proof.
  intros Hdel Hdir Hread Hsplit Hembed Hlen Hrows Hins.
  unfold ingestData, SC.try_catch.
  rewrite (ingest_try_after_split old files contents allChunks)
    by assumption.
  unfold embed_and_insert.
  assert (Hne : Nat.eqb (List.length (filter valid_chunk allChunks)) 0
                = false).
  { destruct (filter valid_chunk allChunks); [now elim Hrows | reflexivity]. }
  rewrite Hne.
  unfold SC.bind at 1. unfold await_embedDocuments, awaited, SC.call.
  rewrite Hembed, Hlen, Nat.eqb_refl.
  set (rows := rows_from 0 (filter valid_chunk allChunks) embeddings) in *.
  assert (Hne' : Nat.eqb (List.length rows) 0 = false).
  { destruct rows; [now elim Hrows | reflexivity]. }
  rewrite Hne'.
  cbn [negb inserts stderr exit_code embed_calls documents app].
  match goal with
  | |- context [insert_batches deps ?f 0 rows ?s0] =>
      pose proof (insert_batches_no_throw rows f Hins 0 s0) as Hok;
      pose proof (insert_batches_run rows f 0 s0) as Hrun;
      destruct (insert_batches deps f 0 rows s0) as [c s']
  end.
  simpl in Hok. subst c.
  destruct (Hrun _ _ (Nat.le_sub_l _ _) eq_refl)
    as [sent [Hsent [Hall [Hec [Herr [Hexit [Hconcat Hdocs]]]]]]].
  clear Hrun. simpl in Hsent, Hec, Herr, Hexit, Hconcat, Hdocs.
  destruct s' as [docs ins ec err ex]. simpl in *. subst docs ins ec err ex.
  exists sent. rewrite Hconcat. repeat split; auto.
Qed.

(** X19.  Once the delete has succeeded, the script ends with a table that
    holds exactly the batches it inserted: all of them when it does not
    exit, all but the last one sent (or nothing) when it exits with code
    1.  Every row of the table has a text longer than [MIN_CHUNK_LENGTH]
    once trimmed and an embedding that is not empty, and every batch sent
    holds between one row and [BATCH_SIZE] rows. *)
Theorem ingest_table_is_what_was_inserted (old : list Row) :
  table_delete deps = Normal None ->
  exists final,
    ingestData deps (store_with old) = (Normal tt, final)
    /\ Forall row_ok (documents final)
    /\ Forall batch_ok (inserts final)
    /\ ((exit_code final = None
         /\ documents final = concat (inserts final))
        \/ (exit_code final = Some 1
            /\ ((inserts final = [] /\ documents final = [])
                \/ exists bs b,
                     inserts final = (bs ++ [b])%list
                     /\ documents final = concat bs))).
Proof.
  intros Hdel. unfold ingestData, SC.try_catch.
  destruct (ingestData_try deps (store_with old)) as [c s'] eqn:Htry.
  destruct (ingest_try_inv old c s' Hdel Htry)
    as [Herr [Hexit [Hbatches [Hrows Hcase]]]].
  destruct c as [[]|e].
  - exists s'. repeat split; auto.
  - rewrite ingestData_catch_run. eexists. split; [reflexivity |]. simpl.
    repeat split; auto.
Qed.

(** X20.  When the delete fails, the table keeps its rows, nothing is
    embedded or inserted, and the script exits with code 1.  When the
    delete resolves to an error, the script logs one line, with the message
    of that error; when the delete throws, it logs the message of what was
    thrown, and then its cause when it has one. *)
Theorem ingest_delete_failure_keeps_table (old : list Row)
    (lines : list string) :
  (exists e,
      table_delete deps = Normal (Some e)
      /\ lines
         = ["Ingestion failed: Supabase delete error: " ++ pg_message e])
  \/ (exists e,
        table_delete deps = Throw e
        /\ lines
           = ("Ingestion failed: " ++ message e)
             :: match cause_of deps e with
                | Some cause => ["Cause: " ++ cause]
                | None => []
                end) ->
  ingestData deps (store_with old)
  = (Normal tt, mkStore old [] [] lines (Some 1)).
Proof.
  intros [[e [He ->]] | [e [He ->]]];
    unfold ingestData, SC.try_catch, ingestData_try, store_with;
    unfold SC.bind at 1; unfold await_delete; rewrite He;
    unfold awaited, SC.call; cbv beta iota.
  - unfold SC.bind, SC.throw. now rewrite ingestData_catch_run.
  - now rewrite ingestData_catch_run.
Qed.

(** X21.  When no chunk is valid (none has more than [MIN_CHUNK_LENGTH]
    characters once trimmed), the script returns without calling the
    embedder and without exiting, and leaves the table empty: the old rows
    were deleted first. *)
Theorem ingest_skips_without_valid_chunks (old : list Row)
    (files : list string) (contents : string -> string)
    (allChunks : list Document) :
  table_delete deps = Normal None ->
  readdir deps KNOWLEDGE_DIR = Normal files ->
  (forall file,
      In file (filter (fun f => endsWith f ".txt") files) ->
      readFile deps (path_join deps KNOWLEDGE_DIR file)
      = Normal (contents file)) ->
  splitDocuments deps
    (map (fun f => mkDocument (contents f) (mkMetadata f))
         (filter (fun f => endsWith f ".txt") files))
  = Normal allChunks ->
  filter valid_chunk allChunks = [] ->
  ingestData deps (store_with old) = (Normal tt, mkStore [] [] [] [] None).
Proof.
  intros Hdel Hdir Hread Hsplit Hvalid. unfold ingestData, SC.try_catch.
  rewrite (ingest_try_after_split old files contents allChunks)
    by assumption.
  unfold embed_and_insert. rewrite Hvalid. reflexivity.
Qed.

(** X22.  When the embedder returns a number of embeddings that differs
    from the number of valid chunks, nothing is inserted: the table stays
    empty after the delete and the script exits with code 1. *)
Theorem ingest_count_mismatch (old : list Row) (files : list string)
    (contents : string -> string) (allChunks : list Document)
    (embeddings : list (list number)) :
  table_delete deps = Normal None ->
  readdir deps KNOWLEDGE_DIR = Normal files ->
  (forall file,
      In file (filter (fun f => endsWith f ".txt") files) ->
      readFile deps (path_join deps KNOWLEDGE_DIR file)
      = Normal (contents file)) ->
  splitDocuments deps
    (map (fun f => mkDocument (contents f) (mkMetadata f))
         (filter (fun f => endsWith f ".txt") files))
  = Normal allChunks ->
  filter valid_chunk allChunks <> [] ->
  embedDocuments deps (map pageContent (filter valid_chunk allChunks))
  = Normal embeddings ->
  List.length embeddings <> List.length (filter valid_chunk allChunks) ->
  ingestData deps (store_with old)
  = (Normal tt,
     mkStore [] [] [map pageContent (filter valid_chunk allChunks)]
       ["Ingestion failed: Embedding API returned a different number of "
        ++ "embeddings than expected."]
       (Some 1)).
Proof.
  intros Hdel Hdir Hread Hsplit Hvalid Hembed Hlen.
  unfold ingestData, SC.try_catch.
  rewrite (ingest_try_after_split old files contents allChunks)
    by assumption.
  unfold embed_and_insert.
  assert (Hne : Nat.eqb (List.length (filter valid_chunk allChunks)) 0
                = false).
  { destruct (filter valid_chunk allChunks); [now elim Hvalid | reflexivity]. }
  rewrite Hne.
  unfold SC.bind at 1. unfold await_embedDocuments, awaited, SC.call.
  rewrite Hembed. apply Nat.eqb_neq in Hlen. rewrite Hlen. reflexivity.
Qed.

End IngestFacts.

(** ** The start of the server *)

Section ServerFacts.

Context {number : Type}.
Variable fs : @FileSystem number.
Variable factory : @ServiceFactory number.
Variable env : ProcessEnv.

Lemma require_env_missing (name : string) (value : option string) :
  missing value = true ->
  require_env name value
  = ST.throw (S := @Process number) (mkError ("Missing: " ++ name)).
Proof.
  unfold require_env, missing. destruct value as [v|]; [| reflexivity].
  now intros ->.
Qed.

Lemma require_env_present (name : string) (value : option string) v :
  value = Some v -> missing value = false ->
  require_env name value = ST.ret (S := @Process number) v.
Proof. intros -> H. unfold require_env. simpl in H. now rewrite H. Qed.

(** X25.  When the environment lacks one of the three keys (unset or
    empty), the server does not start: it logs the name of the first key
    missing, in the order GOOGLE_API_KEY, SUPABASE_URL, SUPABASE_ANON_KEY,
    and exits with code 1, before it reads the dataset or builds a
    service. *)
Theorem server_fails_on_missing_key (name : string) :
  first_missing env = Some name ->
  startServer fs factory env boot
  = (Normal tt,
     mkProcess ["🔥 FAILED TO INITIALIZE SERVER 🔥";
                "Error: Missing: " ++ name]
               (Some 1) None).
Proof.
  unfold first_missing, startServer, startServer_try, boot.
  destruct (missing (GOOGLE_API_KEY env)) eqn:Hg.
  { intros [= <-]. rewrite (require_env_missing _ _ Hg). reflexivity. }
  destruct (GOOGLE_API_KEY env) as [g|] eqn:Eg; [| discriminate].
  rewrite (require_env_present _ _ g eq_refl Hg).
  destruct (missing (SUPABASE_URL env)) eqn:Hu.
  { intros [= <-]. rewrite (require_env_missing _ _ Hu). reflexivity. }
  destruct (SUPABASE_URL env) as [u|] eqn:Eu; [| discriminate].
  rewrite (require_env_present _ _ u eq_refl Hu).
  destruct (missing (SUPABASE_ANON_KEY env)) eqn:Ha; [| discriminate].
  intros [= <-]. rewrite (require_env_missing _ _ Ha). reflexivity.
Qed.


(** X27.  With the three keys set and the services built, a port that
    [app.listen] refuses stops the server: the error is caught by the
    [catch] block of [startServer], which logs it after what
    [loadTravelData] has logged, and the process exits with code 1 without
    listening. *)
Theorem server_exits_when_listen_throws g url anon chatModel client
    embedder e :
  first_missing env = None ->
  GOOGLE_API_KEY env = Some g ->
  SUPABASE_URL env = Some url ->
  SUPABASE_ANON_KEY env = Some anon ->
  getGenerativeModel factory g = Normal chatModel ->
  createClient factory url anon = Normal client ->
  newEmbeddings factory g = Normal embedder ->
  newVectorStore factory = Normal tt ->
  express_app factory = Normal tt ->
  listen factory (server_port env) = Throw e ->
  startServer fs factory env boot
  = (Normal tt,
     mkProcess
       (snd (loadTravelData fs (path_resolve fs "./travelData.json") [])
        ++ ["🔥 FAILED TO INITIALIZE SERVER 🔥";
            ("Error: " ++ message e)%string])%list
       (Some 1) None).
Proof.
  intros Hnone Hg Hu Ha Hmodel Hclient Hembed Hstore Happ Hlisten.
  unfold first_missing in Hnone.
  destruct (missing (GOOGLE_API_KEY env)) eqn:Mg; [discriminate |].
  destruct (missing (SUPABASE_URL env)) eqn:Mu; [discriminate |].
  destruct (missing (SUPABASE_ANON_KEY env)) eqn:Ma; [discriminate |].
  unfold startServer, startServer_try, boot.
  rewrite (require_env_present _ _ g Hg Mg),
    (require_env_present _ _ url Hu Mu),
    (require_env_present _ _ anon Ha Ma).
  unfold ST.try_catch, ST.bind, ST.ret, ST.call, ST.modify, ST.zoom,
    loadTravelData.
  destruct (read_cities fs (path_resolve fs "./travelData.json"));
    cbn [fst snd proc_stderr proc_exit listening];
    rewrite Hmodel, Hclient, Hembed, Hstore, Happ, Hlisten; reflexivity.
Qed.

End ServerFacts.

(** * Examples *)

Section Examples.

Import Sample.

(** The string primitives on small inputs. *)
Example split_W_pieces :
  split_W " a  b_c,d " = [EmptyString; "a"; "b_c"; "d"; EmptyString]
  /\ split_W EmptyString = [EmptyString]
  /\ split_W "3 days in Jaipur" = ["3"; "days"; "in"; "Jaipur"].
Proof. repeat split. Qed.

Example replace_first_only :
  replace "a{context}b{context}" "{context}" "X" = "aXb{context}"
  /\ replace "a{context}b" "{context}" "[$$|$&|$1]" = "a[$|{context}|$1]b"
  /\ replace "abc" "{context}" "X" = "abc".
Proof. repeat split. Qed.

Example trim_both_ends :
  trim ("  Jaipur trip " ++ nl) = "Jaipur trip"
  /\ trim "   " = EmptyString.
Proof. repeat split. Qed.

Example stringify_escapes :
  JSON.stringify [("error", JSON.Str ("a" ++ dq ++ "b" ++ nl))]
  = "{" ++ dq ++ "error" ++ dq ++ ":" ++ dq
    ++ "a" ++ backslash ++ dq ++ "b" ++ backslash ++ "n" ++ dq ++ "}".
Proof. reflexivity. Qed.

(** The scenario of the design document: Jaipur in the dataset and two
    snippets. *)
Example jaipur_scenario :
  searchCity "3 days in Jaipur under budget" dataset = [jaipur]
  /\ ragContext (Some rows)
     = Normal ("[From jaipur.txt]: Hawa Mahal is best at sunrise."
               ++ nl ++ "---" ++ nl
               ++ "[From tips.txt]: Carry water in summer.")
  /\ structuredContext show [jaipur]
     = "Found Data: Jaipur, STATE:Rajasthan, HOTEL:2500, FOOD:800, "
       ++ "SPOTS:Hawa Mahal, Amber Fort"
  /\ body (res (snd (chat_stream show (deps_ok (Some rows))
                       (mkRequest (JsString "3 days in Jaipur under budget"))
                       (fresh []))))
     = map wire [textDelta "Chalo "; textDelta "Jaipur!"; done].
Proof. repeat split; vm_compute; reflexivity. Qed.



(** The events on the wire when the stream breaks after one chunk. *)
Example stream_break_events :
  body (res (snd (chat_stream show deps_stream_breaks
                    (mkRequest (JsString "Jaipur trip")) (fresh []))))
  = ["data: {" ++ dq ++ "text" ++ dq ++ ":" ++ dq ++ "Chalo " ++ dq ++ "}"
     ++ nl ++ nl;
     "data: {" ++ dq ++ "error" ++ dq ++ ":" ++ dq ++ "stream reset" ++ dq
     ++ "}" ++ nl ++ nl].
Proof. vm_compute. reflexivity. Qed.

(** C4, counterexample.  With no row, the retrieved-context section is the
    empty text after its label: the context holds no placeholder for the
    missing snippets. *)
Lemma no_snippets_placeholder_missing :
  ~ (exists placeholder,
       placeholder <> EmptyString
       /\ ragContext (Some []) = Normal placeholder)
  /\ includes (finalContext (structuredContext show []) EmptyString)
              ("RAG Context: " ++ nl) = true
  /\ includes (toLowerCase
                 (finalContext (structuredContext show []) EmptyString))
              "no snippets" = false
  /\ includes (toLowerCase
                 (finalContext (structuredContext show []) EmptyString))
              "nothing found" = false
  /\ includes (toLowerCase
                 (finalContext (structuredContext show []) EmptyString))
              "no rag results" = false.
Proof.
  split; [| repeat split].
  intros [placeholder [Hne H]]. apply Hne.
  simpl in H. now injection H as <-.
Qed.

(** C5, counterexample.  The query contains the name of Jaipur, and the
    first element of the result is Delhi, which the query names too and
    which comes first in the dataset. *)
Lemma first_hit_follows_dataset_order :
  In jaipur dataset
  /\ includes "Delhi to Jaipur by road" (city jaipur) = true
  /\ searchCity "Delhi to Jaipur by road" dataset = [delhi; jaipur]
  /\ hd_error (searchCity "Delhi to Jaipur by road" dataset) <> Some jaipur.
Proof.
  split; [right; left; reflexivity |].
  split; [reflexivity |]. split; [reflexivity |].
  vm_compute. discriminate.
Qed.

(** C5 as amended, on an instance: Delhi precedes Jaipur in the dataset and
    is not named in the query. *)
Lemma searchCity_exact_name_witness :
  includes (toLowerCase "3 days in Jaipur under budget")
           (toLowerCase (city jaipur)) = true
  /\ filter (direct_match (toLowerCase "3 days in Jaipur under budget"))
            [delhi] = []
  /\ searchCity "3 days in Jaipur under budget" dataset = [jaipur]
  /\ hd_error (searchCity "3 days in Jaipur under budget" dataset)
     = Some jaipur.
Proof.
  split; [reflexivity |]. split; [reflexivity |].
  destruct (searchCity_exact_name "3 days in Jaipur under budget"
              [delhi] jaipur [] eq_refl) as [Hhits Hfirst].
  split; [exact Hhits | exact (Hfirst eq_refl)].
Defined.

(** C6, counterexample.  A record whose state is empty matches the empty
    query: the result is not empty. *)
Lemma empty_query_matches_empty_name :
  searchCity EmptyString [chandigarh] = [chandigarh]
  /\ searchCity EmptyString [chandigarh] <> [].
Proof. split; [reflexivity | discriminate]. Qed.

(** C9, on an instance: the search answers [null]. *)
Lemma zero_rows_reach_model_witness :
  let req := mkRequest (JsString "what is love") in
  let q := "what is love" in
  let r := mkRpcResult None None in
  let chat := session ["Chalo "; "Jaipur!"] None in
  call_trim (or_else (query req) (JsString EmptyString)) = Normal q
  /\ embedQuery (geminiEmbedder (deps_ok None)) q = Normal vector
  /\ rpc (supabaseClient (deps_ok None)) (dbQueryName (deps_ok None))
         vector 3 = Normal r
  /\ error r = None
  /\ (data r = None \/ data r = Some [])
  /\ startChat (chatModel (deps_ok None))
       (history (fuse show
                   (hd_error (searchCity q (cities (deps_ok None)))) []))
     = Normal chat
  /\ calls (snd (chat_stream show (deps_ok None) req (fresh [])))
     = [call_embedQuery q;
        call_rpc (dbQueryName (deps_ok None)) vector 3;
        call_startChat
          (history (fuse show
                      (hd_error (searchCity q (cities (deps_ok None)))) []));
        call_sendMessageStream q]
  /\ head (res (snd (chat_stream show (deps_ok None) req (fresh []))))
     = Some (200, event_stream_headers []).
Proof.
  intros req q r chat.
  repeat (split; [first [reflexivity | now left] |]).
  apply (zero_rows_reach_model show (deps_ok None) req [] q vector r chat);
    first [reflexivity | now left].
Defined.

(** C10, on an instance: the body has no [query] field. *)
Lemma empty_query_not_rejected_witness :
  let req := mkRequest undefined in
  let d := deps_ok (Some rows) in
  let r := mkRpcResult (Some rows) None in
  let rag := "[From jaipur.txt]: Hawa Mahal is best at sunrise."
             ++ nl ++ "---" ++ nl
             ++ "[From tips.txt]: Carry water in summer." in
  let chat := session ["Chalo "; "Jaipur!"] None in
  (query req = undefined \/ query req = null
   \/ query req = JsString EmptyString)
  /\ embedQuery (geminiEmbedder d) EmptyString = Normal vector
  /\ rpc (supabaseClient d) (dbQueryName d) vector 3 = Normal r
  /\ error r = None
  /\ ragContext (data r) = Normal rag
  /\ startChat (chatModel d)
       (history (finalContext
                   (structuredContext show
                      (searchCity EmptyString (cities d))) rag))
     = Normal chat
  /\ call_trim (or_else (query req) (JsString EmptyString))
     = Normal EmptyString
  /\ calls (snd (chat_stream show d req (fresh [])))
     = [call_embedQuery EmptyString;
        call_rpc (dbQueryName d) vector 3;
        call_startChat
          (history (finalContext
                      (structuredContext show
                         (searchCity EmptyString (cities d))) rag));
        call_sendMessageStream EmptyString]
  /\ head (res (snd (chat_stream show d req (fresh []))))
     = Some (200, event_stream_headers []).
Proof.
  intros req d r rag chat.
  repeat (split; [first [reflexivity | now left] |]).
  apply (empty_query_not_rejected show d req [] vector r rag chat);
    first [reflexivity | now left].
Defined.

End Examples.

(** * More examples *)

Section MoreExamples.

Import Sample.
Import SampleMore.

(** X3, on an instance: the body holds [{ query: { text: ... } }]. *)
Lemma non_string_query_fails_closed_witness :
  query (mkRequest JsObject) = JsObject
  /\ exists w,
       chat_stream show (deps_ok None) (mkRequest JsObject) (fresh [])
       = (Normal tt, w)
       /\ res w = error_response []
       /\ calls w = []
       /\ console_error w
          = [("ERROR in /api/chat:",
              "(query || " ++ dq ++ dq ++ ").trim is not a function")].
Proof.
  split; [reflexivity |].
  apply (non_string_query_fails_closed show (deps_ok None)
           (mkRequest JsObject) []).
  reflexivity.
Defined.

(** X4, on an instance: the search times out. *)
Lemma search_error_stops_before_model_witness :
  let req := mkRequest (JsString "Jaipur") in
  let r := mkRpcResult None (Some (mkPostgrestError "timeout")) in
  call_trim (or_else (query req) (JsString EmptyString)) = Normal "Jaipur"
  /\ embedQuery (geminiEmbedder deps_search_error) "Jaipur" = Normal vector
  /\ rpc (supabaseClient deps_search_error) (dbQueryName deps_search_error)
         vector 3 = Normal r
  /\ error r = Some (mkPostgrestError "timeout")
  /\ exists w,
       chat_stream show deps_search_error req (fresh []) = (Normal tt, w)
       /\ res w = error_response []
       /\ calls w = [call_embedQuery "Jaipur";
                     call_rpc (dbQueryName deps_search_error) vector 3]
       /\ console_error w
          = [("Supabase RPC error:", "timeout");
             ("ERROR in /api/chat:", "Failed to match documents: timeout")].
Proof.
  intros req r. repeat (split; [reflexivity |]).
  apply (search_error_stops_before_model show deps_search_error req []
           "Jaipur" vector r (mkPostgrestError "timeout"));
    reflexivity.
Defined.

(** X5, on an instance: the second row has no [metadata]. *)
Lemma malformed_row_fails_before_model_witness :
  let d := deps_ok (Some broken_rows) in
  let req := mkRequest (JsString "Jaipur") in
  let r := mkRpcResult (Some broken_rows) None in
  call_trim (or_else (query req) (JsString EmptyString)) = Normal "Jaipur"
  /\ embedQuery (geminiEmbedder d) "Jaipur" = Normal vector
  /\ rpc (supabaseClient d) (dbQueryName d) vector 3 = Normal r
  /\ error r = None
  /\ data r = Some broken_rows
  /\ In (mkDoc None "orphan") broken_rows
  /\ metadata (mkDoc None "orphan") = None
  /\ exists w,
       chat_stream show d req (fresh []) = (Normal tt, w)
       /\ res w = error_response []
       /\ calls w = [call_embedQuery "Jaipur";
                     call_rpc (dbQueryName d) vector 3].
Proof.
  intros d req r.
  repeat (split; [first [reflexivity | right; left; reflexivity] |]).
  apply (malformed_row_fails_before_model show d req [] "Jaipur" vector r
           broken_rows (mkDoc None "orphan"));
    first [reflexivity | right; left; reflexivity].
Defined.

(** X6, on an instance: the model streams two chunks. *)
Lemma stream_forwards_in_order_witness :
  let d := deps_ok (Some rows) in
  let req := mkRequest (JsString "Jaipur") in
  let chat := session ["Chalo "; "Jaipur!"] None in
  let w' := snd (open_chat show d req (fresh [])) in
  open_chat show d req (fresh []) = (Normal ("Jaipur", chat), w')
  /\ sendMessageStream chat "Jaipur"
     = Normal (mkStreamResult
                 (map (fun t => mkChunk (Normal t)) ["Chalo "; "Jaipur!"])
                 None)
  /\ exists w,
       chat_stream show d req (fresh []) = (Normal tt, w)
       /\ res w
          = event_response []
              (map textDelta ["Chalo "; "Jaipur!"] ++ [done]) true
       /\ parse_events (body (res w))
          = Some (map textDelta ["Chalo "; "Jaipur!"] ++ [done])%list
       /\ console_error w = console_error w'.
Proof.
  intros d req chat w'.
  split; [vm_compute; reflexivity |]. split; [reflexivity |].
  apply (stream_forwards_in_order show d req [] "Jaipur" chat w'
           ["Chalo "; "Jaipur!"]);
    [vm_compute; reflexivity | reflexivity].
Defined.

(** X9, on an instance: a context without a dollar sign. *)
Lemma seed_without_dollar_witness :
  let context :=
    finalContext "No specific city found in my database."
                 "[From tips.txt]: Carry water in summer." in
  no_dollar context = true
  /\ history context
     = [mkContent role_user [prompt_before ++ context ++ prompt_after];
        mkContent role_model [acknowledgement]]
  /\ systemPrompt = prompt_before ++ "{context}" ++ prompt_after.
Proof.
  intros context. split; [reflexivity |].
  apply (seed_without_dollar context). reflexivity.
Defined.

(** X11, on an instance: the buffered form with a model that answers. *)
Lemma buffered_returns_model_text_witness :
  let d := deps_ok (Some rows) in
  let req := mkRequest (JsString "Jaipur") in
  let chat := session ["Chalo "; "Jaipur!"] None in
  let w' := snd (open_chat show d req (fresh [])) in
  let result := mkGenerateContentResult (Normal "Chalo Jaipur!") in
  open_chat show d req (fresh []) = (Normal ("Jaipur", chat), w')
  /\ sendMessage chat "Jaipur" = Normal result
  /\ response_text result = Normal "Chalo Jaipur!"
  /\ exists w,
       chat_buffered show d req (fresh []) = (Normal tt, w)
       /\ res w
          = json_response [] 200 [("reply", JSON.Str "Chalo Jaipur!")]
       /\ calls w = (calls w' ++ [call_sendMessage "Jaipur"])%list
       /\ console_error w = console_error w'.
Proof.
  intros d req chat w' result.
  split; [vm_compute; reflexivity |]. split; [reflexivity |].
  split; [reflexivity |].
  apply (buffered_returns_model_text show d req [] "Jaipur" chat w' result
           "Chalo Jaipur!");
    [vm_compute; reflexivity | reflexivity | reflexivity].
Defined.

(** X12, on an instance: the header holds the scheme only. *)
Lemma auth_rejects_before_provider_witness :
  token_of (Some "Bearer") = None
  /\ exists text,
       (text = "No authorization header."
        \/ text = "Malformed authorization header.")
       /\ authMiddleware provider (Some "Bearer") (ST.ret tt)
            (fresh_exchange (number := N) [])
          = (Normal tt,
             mkExchange (mkWorld (rejection [] 401 text) [] []) None [])
       /\ writableEnded (rejection [] 401 text) = true
       /\ body (rejection [] 401 text)
          = [JSON.stringify [("error", JSON.Str text)]].
Proof.
  split; [reflexivity |].
  apply (auth_rejects_before_provider (number := N) provider
           (Some "Bearer") (ST.ret tt) []).
  reflexivity.
Defined.

(** X13, on an instance: a token the provider does not know. *)
Lemma auth_invalid_token_witness :
  let response := mkUserResponse None (Some (mkAuthError "invalid JWT")) in
  token_of (Some "Bearer guess") = Some "guess"
  /\ provider "guess" = Normal response
  /\ (auth_error response <> None \/ data_user response = None)
  /\ exists x : @Exchange N,
       authMiddleware provider (Some "Bearer guess") (ST.ret tt)
         (fresh_exchange [])
       = (Normal tt, x)
       /\ res (world x) = rejection [] 401 "Invalid token."
       /\ calls (world x) = []
       /\ req_user x = None
       /\ getUser_calls x = ["guess"].
Proof.
  intros response. split; [reflexivity |]. split; [reflexivity |].
  split; [now right |].
  apply (auth_invalid_token (number := N) provider (Some "Bearer guess")
           (ST.ret tt) [] "guess" response);
    first [reflexivity | now right].
Defined.

(** X14, on an instance: the provider cannot be reached. *)
Lemma auth_provider_failure_witness :
  token_of (Some "Bearer secret") = Some "secret"
  /\ provider_down "secret" = Throw (mkError "fetch failed")
  /\ exists x : @Exchange N,
       authMiddleware provider_down (Some "Bearer secret") (ST.ret tt)
         (fresh_exchange [])
       = (Normal tt, x)
       /\ res (world x) = rejection [] 500 "Internal authentication error."
       /\ console_error (world x) = [("Critical auth error:", "fetch failed")]
       /\ calls (world x) = []
       /\ req_user x = None
       /\ getUser_calls x = ["secret"].
Proof.
  split; [reflexivity |]. split; [reflexivity |].
  apply (auth_provider_failure (number := N) provider_down
           (Some "Bearer secret") (ST.ret tt) [] "secret"
           (mkError "fetch failed"));
    reflexivity.
Defined.

(** X15, on an instance: the token the provider knows. *)
Lemma route_accepts_verified_witness :
  let req := chat_post (Some "Bearer secret") in
  token_of (authorization req) = Some "secret"
  /\ provider "secret" = Normal (mkUserResponse (Some asha) None)
  /\ exists x,
       chat_route show provider (deps_ok (Some rows)) req (fresh_exchange [])
       = (Normal tt, x)
       /\ world x
          = snd (chat_stream show (deps_ok (Some rows)) (chat_request req)
                   (fresh []))
       /\ req_user x = Some asha
       /\ getUser_calls x = ["secret"].
Proof.
  intros req. split; [reflexivity |]. split; [reflexivity |].
  apply (route_accepts_verified show provider (deps_ok (Some rows)) req []
           "secret" asha);
    reflexivity.
Defined.

(** X16, on an instance: the request reached the collaborators. *)
Lemma route_calls_need_verified_user_witness :
  let req := chat_post (Some "Bearer secret") in
  calls (world (snd (chat_route show provider (deps_ok (Some rows)) req
                       (fresh_exchange [])))) <> []
  /\ exists token u,
       token_of (authorization req) = Some token
       /\ provider token = Normal (mkUserResponse (Some u) None)
       /\ req_user (snd (chat_route show provider (deps_ok (Some rows)) req
                           (fresh_exchange []))) = Some u.
Proof.
  intros req.
  assert (H : calls (world (snd (chat_route show provider
                                   (deps_ok (Some rows)) req
                                   (fresh_exchange [])))) <> []).
  { vm_compute. discriminate. }
  split; [exact H |].
  exact (route_calls_need_verified_user show provider (deps_ok (Some rows))
           req [] H).
Defined.

(** X17, on an instance: the scheme [Basic]. *)
Lemma auth_scheme_ignored_witness :
  lacks " " "Basic" = true
  /\ lacks " " "secret" = true
  /\ "secret" <> EmptyString
  /\ authMiddleware provider (Some ("Basic" ++ " " ++ "secret")) (ST.ret tt)
       (fresh_exchange (number := N) [])
     = authMiddleware provider (Some ("Bearer " ++ "secret")) (ST.ret tt)
         (fresh_exchange [])
  /\ req_user (snd (authMiddleware provider (Some "Basic secret") (ST.ret tt)
                      (fresh_exchange (number := N) [])))
     = Some asha.
Proof.
  split; [reflexivity |]. split; [reflexivity |].
  split; [discriminate |]. split; [| reflexivity].
  apply (auth_scheme_ignored (number := N) provider "Basic" "secret");
    first [reflexivity | discriminate].
Defined.

(** X23, on an instance: a query with white space around it. *)
Lemma query_is_trimmed_witness :
  let req := mkRequest (JsString "  Jaipur trip ") in
  query req = JsString "  Jaipur trip "
  /\ trim "  Jaipur trip " = "Jaipur trip"
  /\ exists rest,
       calls (snd (chat_stream show deps_embed_fails req (fresh [])))
       = call_embedQuery (trim "  Jaipur trip ") :: rest.
Proof.
  intros req. split; [reflexivity |]. split; [reflexivity |].
  exact (proj1 (query_is_trimmed show deps_embed_fails req []
                  "  Jaipur trip " eq_refl)).
Defined.

(** X24, on an instance: the second chunk is blocked. *)
Lemma stream_stops_at_failing_chunk_witness :
  let req := mkRequest (JsString "Jaipur") in
  let w' := snd (open_chat show deps_blocked req (fresh [])) in
  open_chat show deps_blocked req (fresh [])
  = (Normal ("Jaipur", session_blocked), w')
  /\ sendMessageStream session_blocked "Jaipur"
     = Normal (mkStreamResult
                 (map (fun t => mkChunk (Normal t)) ["Chalo "]
                  ++ mkChunk (Throw (mkError "blocked"))
                     :: [mkChunk (Normal "never sent")])%list
                 None)
  /\ exists w,
       chat_stream show deps_blocked req (fresh []) = (Normal tt, w)
       /\ res w
          = event_response []
              (map textDelta ["Chalo "] ++ [error_event "blocked"]) true.
Proof.
  intros req w'.
  split; [vm_compute; reflexivity |]. split; [reflexivity |].
  apply (stream_stops_at_failing_chunk show deps_blocked req [] "Jaipur"
           session_blocked w' ["Chalo "] (mkError "blocked")
           [mkChunk (Normal "never sent")] None);
    [vm_compute; reflexivity | reflexivity].
Defined.

(** The files, the documents and the chunks of the sample knowledge base. *)
Example sample_ingestion :
  fst (ingestData ingest_ok (store_with old_rows)) = Normal tt
  /\ map row_metadata
         (documents (snd (ingestData ingest_ok (store_with old_rows))))
     = [mkMetadata "jaipur.txt"; mkMetadata "tips.txt"]
  /\ exit_code (snd (ingestData ingest_ok (store_with old_rows))) = None.
Proof. repeat split; vm_compute; reflexivity. Qed.

(** X18, on an instance: two text files, one chunk each. *)
Lemma ingest_success_witness :
  let files := ["jaipur.txt"; "README.md"; "tips.txt"] in
  let txt := filter (fun f => endsWith f ".txt") files in
  let chunks := map (fun f => mkDocument (contents f) (mkMetadata f)) txt in
  let embeddings := [[1; 2]; [1; 2]]%N in
  table_delete ingest_ok = Normal None
  /\ readdir ingest_ok KNOWLEDGE_DIR = Normal files
  /\ (forall file,
         In file txt ->
         readFile ingest_ok (path_join ingest_ok KNOWLEDGE_DIR file)
         = Normal (contents file))
  /\ splitDocuments ingest_ok chunks = Normal chunks
  /\ embedDocuments ingest_ok (map pageContent (filter valid_chunk chunks))
     = Normal embeddings
  /\ List.length embeddings = List.length (filter valid_chunk chunks)
  /\ rows_from 0 (filter valid_chunk chunks) embeddings <> []
  /\ (forall batch, table_insert ingest_ok batch = Normal None)
  /\ exists batches,
       ingestData ingest_ok (store_with old_rows)
       = (Normal tt,
          mkStore (rows_from 0 (filter valid_chunk chunks) embeddings)
                  batches [map pageContent (filter valid_chunk chunks)]
                  [] None)
       /\ concat batches = rows_from 0 (filter valid_chunk chunks) embeddings
       /\ Forall batch_ok batches.
Proof.
  intros files txt chunks embeddings.
  assert (Hread : forall file,
             In file txt ->
             readFile ingest_ok (path_join ingest_ok KNOWLEDGE_DIR file)
             = Normal (contents file)) by (intros file _; reflexivity).
  assert (Hrows : rows_from 0 (filter valid_chunk chunks) embeddings <> [])
    by (vm_compute; discriminate).
  repeat (split; [first [reflexivity | assumption] |]).
  apply (ingest_success ingest_ok old_rows files contents chunks embeddings);
    first [reflexivity | assumption | intros batch; reflexivity].
Defined.

(** X19, on an instance: the sample knowledge base over an old table. *)
Lemma ingest_table_is_what_was_inserted_witness :
  table_delete ingest_ok = Normal None
  /\ exists final,
       ingestData ingest_ok (store_with old_rows) = (Normal tt, final)
       /\ Forall row_ok (documents final)
       /\ Forall batch_ok (inserts final)
       /\ ((exit_code final = None
            /\ documents final = concat (inserts final))
           \/ (exit_code final = Some 1
               /\ ((inserts final = [] /\ documents final = [])
                   \/ exists bs b,
                        inserts final = (bs ++ [b])%list
                        /\ documents final = concat bs))).
Proof.
  split; [reflexivity |].
  apply (ingest_table_is_what_was_inserted ingest_ok old_rows).
  reflexivity.
Defined.

(** X20, on two instances: the delete is refused, and the delete cannot
    reach the database. *)
Lemma ingest_delete_failure_keeps_table_witness :
  table_delete ingest_delete_fails
  = Normal (Some (mkPostgrestError "permission denied"))
  /\ ingestData ingest_delete_fails (store_with old_rows)
     = (Normal tt,
        mkStore old_rows [] []
          ["Ingestion failed: Supabase delete error: permission denied"]
          (Some 1))
  /\ table_delete ingest_delete_throws = Throw (mkError "fetch failed")
  /\ ingestData ingest_delete_throws (store_with old_rows)
     = (Normal tt,
        mkStore old_rows [] []
          ["Ingestion failed: fetch failed";
           "Cause: connect ECONNREFUSED 127.0.0.1:54321"]
          (Some 1)).
Proof.
  split; [reflexivity |]. split.
  - apply (ingest_delete_failure_keeps_table ingest_delete_fails old_rows).
    left. exists (mkPostgrestError "permission denied").
    split; reflexivity.
  - split; [reflexivity |].
    apply (ingest_delete_failure_keeps_table ingest_delete_throws old_rows).
    right. exists (mkError "fetch failed"). split; reflexivity.
Defined.

(** X21, on an instance: the only chunk is too short. *)
Lemma ingest_skips_without_valid_chunks_witness :
  let files := ["jaipur.txt"; "README.md"; "tips.txt"] in
  let txt := filter (fun f => endsWith f ".txt") files in
  let chunks := [mkDocument " too short  " (mkMetadata "jaipur.txt")] in
  table_delete ingest_short = Normal None
  /\ readdir ingest_short KNOWLEDGE_DIR = Normal files
  /\ (forall file,
         In file txt ->
         readFile ingest_short (path_join ingest_short KNOWLEDGE_DIR file)
         = Normal (contents file))
  /\ splitDocuments ingest_short
       (map (fun f => mkDocument (contents f) (mkMetadata f)) txt)
     = Normal chunks
  /\ filter valid_chunk chunks = []
  /\ ingestData ingest_short (store_with old_rows)
     = (Normal tt, mkStore [] [] [] [] None).
Proof.
  intros files txt chunks.
  assert (Hread : forall file,
             In file txt ->
             readFile ingest_short (path_join ingest_short KNOWLEDGE_DIR file)
             = Normal (contents file)) by (intros file _; reflexivity).
  repeat (split; [first [reflexivity | assumption] |]).
  apply (ingest_skips_without_valid_chunks ingest_short old_rows files
           contents chunks);
    first [reflexivity | assumption].
Defined.

(** X22, on an instance: one embedding for two chunks. *)
Lemma ingest_count_mismatch_witness :
  let files := ["jaipur.txt"; "README.md"; "tips.txt"] in
  let txt := filter (fun f => endsWith f ".txt") files in
  let chunks := map (fun f => mkDocument (contents f) (mkMetadata f)) txt in
  let embeddings := [[1; 2]]%N in
  table_delete ingest_mismatch = Normal None
  /\ readdir ingest_mismatch KNOWLEDGE_DIR = Normal files
  /\ (forall file,
         In file txt ->
         readFile ingest_mismatch
           (path_join ingest_mismatch KNOWLEDGE_DIR file)
         = Normal (contents file))
  /\ splitDocuments ingest_mismatch chunks = Normal chunks
  /\ filter valid_chunk chunks <> []
  /\ embedDocuments ingest_mismatch
       (map pageContent (filter valid_chunk chunks))
     = Normal embeddings
  /\ List.length embeddings <> List.length (filter valid_chunk chunks)
  /\ ingestData ingest_mismatch (store_with old_rows)
     = (Normal tt,
        mkStore [] [] [map pageContent (filter valid_chunk chunks)]
          ["Ingestion failed: Embedding API returned a different number of "
           ++ "embeddings than expected."]
          (Some 1)).
Proof.
  intros files txt chunks embeddings.
  assert (Hread : forall file,
             In file txt ->
             readFile ingest_mismatch
               (path_join ingest_mismatch KNOWLEDGE_DIR file)
             = Normal (contents file)) by (intros file _; reflexivity).
  assert (Hvalid : filter valid_chunk chunks <> [])
    by (vm_compute; discriminate).
  assert (Hlen : List.length embeddings
                 <> List.length (filter valid_chunk chunks))
    by (vm_compute; discriminate).
  repeat (split; [first [reflexivity | assumption] |]).
  apply (ingest_count_mismatch ingest_mismatch old_rows files contents chunks
           embeddings);
    first [reflexivity | assumption].
Defined.

(** X25, on an instance: the URL and the anonymous key are not set. *)
Lemma server_fails_on_missing_key_witness :
  first_missing env_without_url = Some "SUPABASE_URL"
  /\ startServer fs_without_dataset factory_ok env_without_url boot
     = (Normal tt,
        mkProcess ["🔥 FAILED TO INITIALIZE SERVER 🔥";
                   "Error: Missing: " ++ "SUPABASE_URL"]
                  (Some 1) None).
Proof.
  split; [reflexivity |].
  apply (server_fails_on_missing_key fs_without_dataset factory_ok
           env_without_url "SUPABASE_URL").
  reflexivity.
Defined.


(** X27, on an instance: PORT is 99999. *)
Lemma server_exits_when_listen_throws_witness :
  let chatModel :=
    mkGenerativeModel (fun _ => Normal (session ["Namaste"] None)) in
  let client :=
    mkSupabaseClient (fun _ _ _ => Normal (mkRpcResult None None)) in
  let embedder := mkEmbeddings (fun _ => Normal vector) in
  first_missing env_bad_port = None
  /\ getGenerativeModel factory_ok "g-key" = Normal chatModel
  /\ createClient factory_ok "https://db.example.org" "anon-key"
     = Normal client
  /\ newEmbeddings factory_ok "g-key" = Normal embedder
  /\ newVectorStore factory_ok = Normal tt
  /\ express_app factory_ok = Normal tt
  /\ listen factory_ok (server_port env_bad_port) = Throw bad_port
  /\ startServer fs_without_dataset factory_ok env_bad_port boot
     = (Normal tt,
        mkProcess
          ["Failed to load or parse travelData.json: "
           ++ "Error: ENOENT: no such file or directory";
           "🔥 FAILED TO INITIALIZE SERVER 🔥";
           "Error: " ++ message bad_port]
          (Some 1) None).
Proof.
  intros chatModel client embedder.
  repeat (split; [reflexivity |]).
  apply (server_exits_when_listen_throws fs_without_dataset factory_ok
           env_bad_port "g-key" "https://db.example.org" "anon-key"
           chatModel client embedder bad_port);
    reflexivity.
Defined.

End MoreExamples.
